(** * Temporal-consistency frame smoothing of project-aura

    Shallow embedding of the frame smoother found in
    [backend/app/services/ai/diffusion_service.py]
    ([DiffusionService._apply_temporal_consistency],
    [_apply_enhanced_temporal_consistency], [_temporal_smooth],
    [_enhanced_temporal_smooth], [_apply_color_consistency]) and in
    [backend/app/services/video/video_processor.py]
    ([VideoProcessor.apply_temporal_consistency], [_temporal_smooth]).

    Modelling choices.
    - Python objects that cross the call boundary (the list [frames], the
      uint8 frames it refers to, the list and the frames that are returned)
      live in a heap indexed by object identities; the smoother runs in a
      state-and-exception monad over that heap, so that "returns [frames]",
      "returns a fresh list" and "does not mutate its input" are statements
      about identities and heap contents.
    - numpy temporaries that never leave a call ([float_frames], [weights],
      [smoothed]) are threaded as values; [smoothed += ...] is the explicit
      passing of the updated array.
    - numpy floating point numbers (float32 frames, float64 weights) are
      idealised as real numbers: every arithmetic operation is exact, no
      rounding error is modelled.  [astype(np.uint8)] truncates toward zero,
      so where the exact value and its float approximation lie on either
      side of an integer the sample of the model and the sample of numpy
      differ by one.  Module [IEEE] repeats one example in binary floating
      point.
    - a Python [int] is a [Z]; [//] on a positive divisor is [Z.div]. *)

From Stdlib Require Import Reals Lra Lia ZArith List SpecFloat.
From stdpp Require Import gmap list.

(** ** Python values: exceptions, outcomes, object identities *)

Inductive exn : Type :=
  | IndexError
  | ValueError
  | TypeError
  | AttributeError.

Inductive outcome (A : Type) : Type :=
  | Returned (a : A)
  | Raised (e : exn).
Arguments Returned {A} a.
Arguments Raised {A} e.

#[global] Instance outcome_ret : MRet outcome := λ A a, Returned a.
#[global] Instance outcome_bind : MBind outcome := λ A B k m,
  match m with
  | Returned a => k a
  | Raised e => Raised e
  end.

(** [for acc-updating loops]: a left fold whose body may raise. *)
Fixpoint foldM {A B : Type} (body : B → A → outcome B) (acc : B) (xs : list A)
    : outcome B :=
  match xs with
  | [] => Returned acc
  | x :: xs' => acc' ← body acc x; foldM body acc' xs'
  end.

(** ** Python sequences *)

Definition len {A : Type} (l : list A) : Z := Z.of_nat (length l).

(** [range(n)] *)
Definition range (n : Z) : list Z := map Z.of_nat (seq 0 (Z.to_nat n)).

Fixpoint enumerate_from {A : Type} (i : Z) (l : list A) : list (Z * A) :=
  match l with
  | [] => []
  | x :: l' => (i, x) :: enumerate_from (i + 1) l'
  end.

(** [enumerate(l)] *)
Definition enumerate {A : Type} (l : list A) : list (Z * A) := enumerate_from 0 l.

(** [l[k]]: negative indices count from the end, anything outside raises. *)
Definition py_index {A : Type} (l : list A) (k : Z) : outcome A :=
  let k' := if (k <? 0)%Z then (k + len l)%Z else k in
  if (0 <=? k')%Z && (k' <? len l)%Z then
    match l !! Z.to_nat k' with
    | Some x => Returned x
    | None => Raised IndexError
    end
  else Raised IndexError.

(** Bound of a slice, as Python normalises it. *)
Definition slice_bound (n k : Z) : Z :=
  if (k <? 0)%Z then Z.max 0 (k + n) else Z.min k n.

(** [l[start:stop]]: never raises, clips to the list. *)
Definition py_slice {A : Type} (l : list A) (start stop : Z) : list A :=
  let lo := slice_bound (len l) start in
  let hi := slice_bound (len l) stop in
  take (Z.to_nat (hi - lo)) (drop (Z.to_nat lo) l).

(** ** The fragment of numpy the smoother uses *)

(** A frame is an array of shape (height, width, channels).  Its contents
    are given by position; only positions inside the shape are meaningful. *)
Record ndarray (A : Type) : Type := mk_ndarray {
  shape : nat * nat * nat;
  item : nat → nat → nat → A
}.
Arguments mk_ndarray {A} shape item.
Arguments shape {A} _.
Arguments item {A} _ _ _ _.

Definition height {A} (a : ndarray A) : nat := (shape a).1.1.
Definition width {A} (a : ndarray A) : nat := (shape a).1.2.
Definition channels {A} (a : ndarray A) : nat := (shape a).2.

(** [frame.astype(np.float32)]: every uint8 value is a float32 value. *)
Definition astype_float32 (a : ndarray Z) : ndarray R :=
  mk_ndarray (shape a) (λ y x c, IZR (item a y x c)).

(** Conversion of a float to an integer truncates toward zero. *)
Definition trunc (x : R) : Z :=
  if Rle_dec 0 x then Int_part x else (- Int_part (- x))%Z.

(** [a.astype(np.uint8)] *)
Definition astype_uint8 (a : ndarray R) : ndarray Z :=
  mk_ndarray (shape a) (λ y x c, (trunc (item a y x c) mod 256)%Z).

(** [np.clip(x, lo, hi)] on one value: [minimum(maximum(x, lo), hi)]. *)
Definition clip (x lo hi : R) : R := Rmin (Rmax x lo) hi.

Definition np_clip (a : ndarray R) (lo hi : R) : ndarray R :=
  mk_ndarray (shape a) (λ y x c, clip (item a y x c) lo hi).

(** [np.zeros_like(a)] *)
Definition np_zeros_like (a : ndarray R) : ndarray R :=
  mk_ndarray (shape a) (λ _ _ _, 0%R).

(** [w * frame] for a scalar [w]. *)
Definition scale (w : R) (a : ndarray R) : ndarray R :=
  mk_ndarray (shape a) (λ y x c, (w * item a y x c)%R).

(** Broadcasting of one axis of an operand onto the axis of an array that
    is updated in place: lengths agree, or the operand has length 1 and is
    repeated. *)
Definition axis_ok (src dst : nat) : bool := (src =? dst)%nat || (src =? 1)%nat.

Definition broadcastable (src dst : nat * nat * nat) : bool :=
  axis_ok src.1.1 dst.1.1 && axis_ok src.1.2 dst.1.2 && axis_ok src.2 dst.2.

Definition axis_index (src dst i : nat) : nat := if (src =? dst)%nat then i else 0%nat.

(** [smoothed += operand]: the result keeps the shape of [smoothed]; an
    operand that cannot be broadcast onto that shape raises ValueError. *)
Definition iadd (smoothed operand : ndarray R) : outcome (ndarray R) :=
  if broadcastable (shape operand) (shape smoothed) then
    Returned (mk_ndarray (shape smoothed) (λ y x c,
      (item smoothed y x c +
       item operand (axis_index (height operand) (height smoothed) y)
                    (axis_index (width operand) (width smoothed) x)
                    (axis_index (channels operand) (channels smoothed) c))%R))
  else Raised ValueError.

(** One-dimensional arrays ([weights], the per-channel means) are lists. *)

(** [np.arange(n)] *)
Definition np_arange (n : nat) : list Z := map Z.of_nat (seq 0 n).

(** [np.sum(v)] *)
Definition np_sum (v : list R) : R := foldr Rplus 0%R v.

(** [v - c], [np.square(v)] on integer arrays. *)
Definition np_subtract (v : list Z) (c : Z) : list Z := map (λ k, (k - c)%Z) v.
Definition np_square (v : list Z) : list Z := map (λ k, (k * k)%Z) v.

(** [s * v]: a float times an integer array is a float array. *)
Definition np_multiply (s : R) (v : list Z) : list R := map (λ k, (s * IZR k)%R) v.

(** [np.exp(v)] *)
Definition np_exp (v : list R) : list R := map exp v.

(** [v / s] *)
Definition np_divide (v : list R) (s : R) : list R := map (λ x, (x / s)%R) v.

(** [np.mean(a, axis=(0, 1))]: one mean per channel, over all positions. *)
Definition sum_upto (n : nat) (f : nat → R) : R := np_sum (map f (seq 0 n)).

Definition spatial_mean (h w : nat) (f : nat → nat → R) : R :=
  (sum_upto h (λ y, sum_upto w (λ x, f y x)) / INR (h * w))%R.

Definition np_mean (a : ndarray R) : list R :=
  map (λ c, spatial_mean (height a) (width a) (λ y x, item a y x c))
      (seq 0 (channels a)).

(** Binary operation on two one-dimensional arrays, with broadcasting. *)
Definition broadcast1 (f : R → R → R) (u v : list R) : outcome (list R) :=
  if (length u =? length v)%nat then Returned (zip_with f u v)
  else if (length v =? 1)%nat then Returned (map (λ a, f a (nth 0 v 0%R)) u)
  else if (length u =? 1)%nat then Returned (map (λ b, f (nth 0 u 0%R) b) v)
  else Raised ValueError.

(** [frame * ratio] for a per-channel [ratio]: broadcast along the last axis. *)
Definition mul_channels (a : ndarray R) (ratio : list R) : outcome (ndarray R) :=
  if (channels a =? length ratio)%nat then
    Returned (mk_ndarray (shape a) (λ y x c, (item a y x c * nth c ratio 0)%R))
  else if (length ratio =? 1)%nat then
    Returned (mk_ndarray (shape a) (λ y x c, (item a y x c * nth 0 ratio 0)%R))
  else if (channels a =? 1)%nat then
    Returned (mk_ndarray (height a, width a, length ratio)
                         (λ y x c, (item a y x 0%nat * nth c ratio 0)%R))
  else Raised ValueError.

(** ** The heap and the monad of Python calls *)

Definition loc : Type := positive.

Inductive object : Type :=
  | PyList (items : list loc)
  | Frame (a : ndarray Z).

Abbreviation heap := (gmap loc object).

Definition py (A : Type) : Type := heap → outcome A * heap.

#[global] Instance py_ret : MRet py := λ A a σ, (Returned a, σ).
#[global] Instance py_bind : MBind py := λ A B k m σ,
  match m σ with
  | (Returned a, σ') => k a σ'
  | (Raised e, σ') => (Raised e, σ')
  end.

(** A pure numpy computation inside a call. *)
Definition lift {A : Type} (o : outcome A) : py A := λ σ, (o, σ).

(** [try: body  except Exception as e: handler e] *)
Definition try_except {A : Type} (body : py A) (handler : exn → py A) : py A :=
  λ σ, match body σ with
       | (Returned a, σ') => (Returned a, σ')
       | (Raised e, σ') => handler e σ'
       end.

(** [for x in xs: body x] *)
Fixpoint for_ {A : Type} (xs : list A) (body : A → py unit) : py unit :=
  match xs with
  | [] => mret tt
  | x :: xs' => body x ;; for_ xs' body
  end.

Fixpoint mapM_py {A B : Type} (f : A → py B) (xs : list A) : py (list B) :=
  match xs with
  | [] => mret []
  | x :: xs' => y ← f x; ys ← mapM_py f xs'; mret (y :: ys)
  end.

(** Creation of an object: a fresh identity, nothing else changes. *)
Definition alloc (o : object) : py loc := λ σ,
  let l := fresh (dom σ) in (Returned l, <[l := o]> σ).

(** The items behind [len(frames)] and [frames[a:b]]. *)
Definition get_list (l : loc) : py (list loc) := λ σ,
  match σ !! l with
  | Some (PyList items) => (Returned items, σ)
  | _ => (Raised TypeError, σ)
  end.

(** The array behind [frame.astype]; an object without that attribute
    raises. *)
Definition get_frame (l : loc) : py (ndarray Z) := λ σ,
  match σ !! l with
  | Some (Frame a) => (Returned a, σ)
  | _ => (Raised AttributeError, σ)
  end.

(** [l.append(x)]: the list object [l] is updated in place. *)
Definition list_append (l x : loc) : py unit := λ σ,
  match σ !! l with
  | Some (PyList items) => (Returned tt, <[l := PyList (items ++ [x])]> σ)
  | _ => (Raised AttributeError, σ)
  end.

(** [start_idx] and [end_idx] of the window around output index [i]
    (the two lines are the same in every [apply_*] function). *)
Definition start_idx (i window_size : Z) : Z := Z.max 0 (i - window_size `div` 2).
Definition end_idx (n i window_size : Z) : Z := Z.min n (i + window_size `div` 2 + 1).

(** ** diffusion_service.py *)

Module DiffusionService.

(** [weights] of [_temporal_smooth], lines 360-361. *)
Definition basic_weights (n : nat) (center_idx : Z) : list R :=
  let weights :=
    np_exp (np_multiply (-0.5) (np_square (np_subtract (np_arange n) center_idx))) in
  np_divide weights (np_sum weights).

(** [weights] of [_enhanced_temporal_smooth], lines 319-320. *)
Definition enhanced_weights (n : nat) (center_idx : Z) : list R :=
  let weights :=
    np_exp (np_multiply (-1.0) (np_square (np_subtract (np_arange n) center_idx))) in
  np_divide weights (np_sum weights).

Definition _temporal_smooth (window_frames : list loc) (center_idx : Z) : py loc :=
  if (length window_frames =? 1)%nat then lift (py_index window_frames 0)
  else
    float_frames ← mapM_py (λ frame, a ← get_frame frame; mret (astype_float32 a))
                           window_frames;
    let weights := basic_weights (length window_frames) center_idx in
    first ← lift (py_index float_frames 0);
    smoothed ← lift (foldM (λ smoothed '(i, frame),
                              w ← py_index weights i; iadd smoothed (scale w frame))
                           (np_zeros_like first) (enumerate float_frames));
    alloc (Frame (astype_uint8 (np_clip smoothed 0 255))).

Definition _apply_color_consistency (smoothed_frame center_frame : ndarray R)
    : outcome (ndarray R) :=
  let smoothed_mean := np_mean smoothed_frame in
  let center_mean := np_mean center_frame in
  color_ratio ← broadcast1 Rdiv center_mean (map (λ m, (m + 1e-8)%R) smoothed_mean);
  let color_ratio := map (λ r, clip r 0.8 1.2) color_ratio in
  mul_channels smoothed_frame color_ratio.

Definition _enhanced_temporal_smooth (window_frames : list loc) (center_idx : Z)
    : py loc :=
  if (length window_frames =? 1)%nat then lift (py_index window_frames 0)
  else
    float_frames ← mapM_py (λ frame, a ← get_frame frame; mret (astype_float32 a))
                           window_frames;
    let weights := enhanced_weights (length window_frames) center_idx in
    first ← lift (py_index float_frames 0);
    smoothed ← lift (foldM (λ smoothed '(i, frame),
                              w ← py_index weights i; iadd smoothed (scale w frame))
                           (np_zeros_like first) (enumerate float_frames));
    center ← lift (py_index float_frames center_idx);
    smoothed ← lift (_apply_color_consistency smoothed center);
    alloc (Frame (astype_uint8 (np_clip smoothed 0 255))).

Definition _apply_enhanced_temporal_consistency (frames : loc) (window_size : Z)
    : py loc :=
  try_except
    (fs ← get_list frames;
     if (len fs <? window_size)%Z then mret frames
     else
       consistent_frames ← alloc (PyList []);
       for_ (range (len fs)) (λ i,
         fs ← get_list frames;
         let start_idx := start_idx i window_size in
         let end_idx := end_idx (len fs) i window_size in
         let window_frames := py_slice fs start_idx end_idx in
         smoothed_frame ← _enhanced_temporal_smooth window_frames (i - start_idx);
         list_append consistent_frames smoothed_frame);;
       mret consistent_frames)
    (λ e, mret frames).

Definition _apply_temporal_consistency (frames : loc) (window_size : Z) : py loc :=
  try_except
    (fs ← get_list frames;
     if (len fs <? window_size)%Z then mret frames
     else
       consistent_frames ← alloc (PyList []);
       for_ (range (len fs)) (λ i,
         fs ← get_list frames;
         let start_idx := start_idx i window_size in
         let end_idx := end_idx (len fs) i window_size in
         let window_frames := py_slice fs start_idx end_idx in
         smoothed_frame ← _temporal_smooth window_frames (i - start_idx);
         list_append consistent_frames smoothed_frame);;
       mret consistent_frames)
    (λ e, mret frames).

(** The default arguments of the two entry points. *)
Definition default_enhanced_window_size : Z := 5.
Definition default_window_size : Z := 3.

End DiffusionService.

(** ** video_processor.py *)

Module VideoProcessor.

Definition _temporal_smooth (window_frames : list loc) (center_idx : Z) : py loc :=
  if (length window_frames =? 1)%nat then lift (py_index window_frames 0)
  else
    float_frames ← mapM_py (λ frame, a ← get_frame frame; mret (astype_float32 a))
                           window_frames;
    let weights := np_exp (np_multiply (-0.5) (np_square (np_subtract
                        (np_arange (length window_frames)) center_idx))) in
    let weights := np_divide weights (np_sum weights) in
    first ← lift (py_index float_frames 0);
    smoothed ← lift (foldM (λ smoothed '(i, frame),
                              w ← py_index weights i; iadd smoothed (scale w frame))
                           (np_zeros_like first) (enumerate float_frames));
    alloc (Frame (astype_uint8 (np_clip smoothed 0 255))).

Definition apply_temporal_consistency (frames : loc) (window_size : Z) : py loc :=
  try_except
    (fs ← get_list frames;
     if (len fs <? window_size)%Z then mret frames
     else
       consistent_frames ← alloc (PyList []);
       for_ (range (len fs)) (λ i,
         fs ← get_list frames;
         let start_idx := start_idx i window_size in
         let end_idx := end_idx (len fs) i window_size in
         let window_frames := py_slice fs start_idx end_idx in
         smoothed_frame ← _temporal_smooth window_frames (i - start_idx);
         list_append consistent_frames smoothed_frame);;
       mret consistent_frames)
    (λ e, mret frames).

Definition default_window_size : Z := 5.

End VideoProcessor.

(** * Definitions used by the statements *)

(** ** The specification's words *)

(** The weight of window member [k]: [exp(-decay * (k - center_offset)^2)]. *)
Definition gaussian (decay : R) (center_offset : Z) (k : Z) : R :=
  exp (- decay * (IZR k - IZR center_offset) ^ 2).

(** The Gaussian weights of a window of [n] frames, normalised by their sum. *)
Definition normalised_gaussians (decay : R) (n : nat) (center_offset : Z) : list R :=
  let raw := map (λ k, gaussian decay center_offset (Z.of_nat k)) (seq 0 n) in
  np_divide raw (np_sum raw).

(** The elementwise weighted sum of the window's float frames (step 5). *)
Definition weighted_sum (weights : list R) (float_frames : list (ndarray R))
    (y x c : nat) : R :=
  np_sum (zip_with (λ w frame, w * item frame y x c)%R weights float_frames).

(** The correction factor of one channel (step 6): the mean of the centre
    frame over the mean of the blended frame plus epsilon, clipped to
    [0.8, 1.2]. *)
Definition color_ratio (h w : nat) (blended center : nat → nat → R) : R :=
  clip (spatial_mean h w center / (spatial_mean h w blended + 1e-8)) 0.8 1.2.

(** The window of output index [i] and the position of frame [i] in it. *)
Definition window_at {A : Type} (fs : list A) (window_size i : Z) : list A :=
  py_slice fs (start_idx i window_size) (end_idx (len fs) i window_size).

Definition center_at (window_size i : Z) : Z := (i - start_idx i window_size)%Z.

(** Two frames with the same shape and the same samples. *)
Definition same_array {A : Type} (a b : ndarray A) : Prop :=
  shape a = shape b ∧ ∀ y x c, item a y x c = item b y x c.

(** A call raises when its outcome is an exception. *)
Definition raises {A : Type} (m : py A) (σ : heap) : Prop :=
  ∃ e, (m σ).1 = Raised e.


(** Frames are never overwritten: what a later heap keeps of an earlier one. *)
Definition keeps_frames (σ σ' : heap) : Prop :=
  ∀ l a, σ !! l = Some (Frame a) → σ' !! l = Some (Frame a).

(** ** The outline shared by the source functions *)

(** [[frame.astype(np.float32) for frame in window_frames]] *)
Definition read_float_frames (window_frames : list loc) : py (list (ndarray R)) :=
  mapM_py (λ frame, a ← get_frame frame; mret (astype_float32 a)) window_frames.

(** The body of [for i, frame in enumerate(float_frames)]. *)
Definition blend_step (weights : list R) (smoothed : ndarray R)
    (p : Z * ndarray R) : outcome (ndarray R) :=
  let '(i, frame) := p in
  w ← py_index weights i; iadd smoothed (scale w frame).

(** [smoothed = np.zeros_like(float_frames[0])] and the loop after it. *)
Definition blend (weights : list R) (float_frames : list (ndarray R))
    : outcome (ndarray R) :=
  first ← py_index float_frames 0;
  foldM (blend_step weights) (np_zeros_like first) (enumerate float_frames).

(** The blend followed by the colour correction against the centre frame. *)
Definition enhanced_blend (weights : list R) (center_idx : Z)
    (float_frames : list (ndarray R)) : outcome (ndarray R) :=
  smoothed ← blend weights float_frames;
  center ← py_index float_frames center_idx;
  DiffusionService._apply_color_consistency smoothed center.

(** Both kernels have the same outline: a one-frame window is returned as
    it is; otherwise the frames are read, a float frame is computed from
    them and its 8-bit conversion is a new object. *)
Definition kernel (compute : list (ndarray R) → outcome (ndarray R))
    (window_frames : list loc) : py loc :=
  if (length window_frames =? 1)%nat then lift (py_index window_frames 0)
  else
    float_frames ← read_float_frames window_frames;
    smoothed ← lift (compute float_frames);
    alloc (Frame (astype_uint8 (np_clip smoothed 0 255))).

(** What the loop needs to know of a kernel: it raises and leaves the heap
    alone, or hands back the single frame of its window, or creates one
    frame. *)
Definition kernel_like (smooth : list loc → Z → py loc) : Prop :=
  ∀ window_frames center_idx σ,
    (∃ e, smooth window_frames center_idx σ = (Raised e, σ)) ∨
    (∃ l, window_frames = [l] ∧ smooth window_frames center_idx σ = (Returned l, σ)) ∨
    (∃ l a, σ !! l = None ∧
            smooth window_frames center_idx σ = (Returned l, <[l := Frame a]> σ)).

(** The three kernels of the source. *)
Inductive smoothing_kernel : (list loc → Z → py loc) → Prop :=
  | basic_kernel : smoothing_kernel DiffusionService._temporal_smooth
  | enhanced_kernel : smoothing_kernel DiffusionService._enhanced_temporal_smooth
  | video_kernel : smoothing_kernel VideoProcessor._temporal_smooth.

(** The three entry points are the same text around different kernels. *)
Definition apply_with (smooth : list loc → Z → py loc) (frames : loc)
    (window_size : Z) : py loc :=
  try_except
    (fs ← get_list frames;
     if (len fs <? window_size)%Z then mret frames
     else
       consistent_frames ← alloc (PyList []);
       for_ (range (len fs)) (λ i,
         fs ← get_list frames;
         let start_idx := start_idx i window_size in
         let end_idx := end_idx (len fs) i window_size in
         let window_frames := py_slice fs start_idx end_idx in
         smoothed_frame ← smooth window_frames (i - start_idx)%Z;
         list_append consistent_frames smoothed_frame);;
       mret consistent_frames)
    (λ e, mret frames).

(** The body of the loop of [apply_with], [consistent_frames] being the
    list under construction. *)
Definition loop_body (smooth : list loc → Z → py loc) (frames : loc)
    (window_size : Z) (consistent_frames : loc) (i : Z) : py unit :=
  fs ← get_list frames;
  smoothed_frame ← smooth (window_at fs window_size i) (center_at window_size i);
  list_append consistent_frames smoothed_frame.

(** The entry points, as a list. *)
Definition entry_points : list (loc → Z → py loc) :=
  [DiffusionService._apply_temporal_consistency;
   DiffusionService._apply_enhanced_temporal_consistency;
   VideoProcessor.apply_temporal_consistency].

(** ** Binary floating point

    The statements below are proved with real numbers in place of floats.
    For the example of identical frames the computation is repeated here on
    one sample in IEEE arithmetic (float64 weights, float32 frames), for
    the ways in which numpy versions sum the weights and promote the
    product [weights[i] * frame]. *)

Module IEEE.

(** Rounding of a finite value to a format with [prec] bits of mantissa and
    exponents below [emax]: binary64 is (53, 1024), binary32 is (24, 128). *)
Definition round_to (prec emax : Z) (x : spec_float) : spec_float :=
  match x with
  | S754_finite s m e => binary_normalize prec emax (cond_Zopp s (Zpos m)) e s
  | _ => x
  end.

Definition of_int (prec emax : Z) (z : Z) : spec_float :=
  binary_normalize prec emax z 0 false.

(** [np.sum] of a short float64 array: from left to right, or the first
    element plus the sum of the others, as numpy's reduction does. *)
Definition sum_left_to_right (v : list spec_float) : spec_float :=
  foldl (SFadd 53 1024) (S754_zero false) v.

Definition sum_first_plus_rest (v : list spec_float) : spec_float :=
  match v with
  | [] => S754_zero false
  | x :: rest => SFadd 53 1024 x (foldl (SFadd 53 1024) (S754_zero false) rest)
  end.

(** [weights / np.sum(weights)] in float64. *)
Definition normalise (sum : list spec_float → spec_float) (v : list spec_float)
    : list spec_float :=
  map (λ x, SFdiv 53 1024 x (sum v)) v.

(** [smoothed += weights[i] * frame] on one sample.  With value-based casting
    the float64 weight is converted to float32 and both operations are done
    in float32; otherwise both are done in float64 and the sum is stored as
    float32. *)
Definition accumulate32 (smoothed w : spec_float) (sample : Z) : spec_float :=
  SFadd 24 128 smoothed (SFmul 24 128 (round_to 24 128 w) (of_int 24 128 sample)).

Definition accumulate64 (smoothed w : spec_float) (sample : Z) : spec_float :=
  round_to 24 128 (SFadd 53 1024 smoothed (SFmul 53 1024 w (of_int 53 1024 sample))).

Definition blend_sample (accumulate : spec_float → spec_float → Z → spec_float)
    (weights : list spec_float) (samples : list Z) : spec_float :=
  foldl (λ smoothed p, accumulate smoothed p.1 p.2) (S754_zero false)
        (zip weights samples).

(** [np.clip(x, 0, 255)] and [astype(np.uint8)] on one float32 value. *)
Definition clip_0_255 (x : spec_float) : spec_float :=
  if SFltb x (S754_zero false) then S754_zero false
  else if SFltb (of_int 24 128 255) x then of_int 24 128 255
  else x.

Definition trunc (x : spec_float) : Z :=
  match x with
  | S754_finite s m e =>
      cond_Zopp s (if (0 <=? e)%Z then Zpos m * 2 ^ e else Zpos m / 2 ^ (- e))%Z
  | _ => 0%Z
  end.

Definition to_uint8 (x : spec_float) : Z := (trunc (clip_0_255 x) mod 256)%Z.

(** The float64 nearest to exp(-0.5), 0x1.368b2fc6f960ap-1, and its two
    neighbours: what [np.exp(-0.5)] returns, up to one unit in the last
    place. *)
Definition exp_minus_half_candidates : list spec_float :=
  [S754_finite false 5463142506141193 (-53);
   S754_finite false 5463142506141194 (-53);
   S754_finite false 5463142506141195 (-53)].

(** The unnormalised weights of the three windows met by five frames with
    window size 3: [frames[0:2]] centred on 0, [frames[i-1:i+2]] centred on
    1, [frames[3:5]] centred on 1; [e] is the value of [np.exp(-0.5)]. *)
Definition windows_of_five_frames (e : spec_float) : list (list spec_float) :=
  let one := of_int 53 1024 1 in
  [[one; e]; [e; one; e]; [e; one]].

(** Whether every sample of the example is returned unchanged under every
    combination of the variants above. *)
Definition identical_frames_check : bool :=
  forallb (λ e,
    forallb (λ raw,
      forallb (λ sum,
        forallb (λ accumulate,
          forallb (λ v,
            (to_uint8 (blend_sample accumulate (normalise sum raw)
                         (replicate (length raw) v)) =? v)%Z)
            [100; 150; 200]%Z)
          [accumulate32; accumulate64])
        [sum_left_to_right; sum_first_plus_rest])
      (windows_of_five_frames e))
    exp_minus_half_candidates.

End IEEE.

(** ** Frames and heaps of the examples *)

(** A frame whose every pixel is [pixel] (one value per channel). *)
Definition solid (h w : nat) (pixel : list Z) : ndarray Z :=
  mk_ndarray (h, w, length pixel) (λ _ _ c, nth c pixel 0%Z).

Definition black_frame : ndarray Z := solid 1 1 [0; 0; 0]%Z.
Definition white_frame : ndarray Z := solid 1 1 [255; 255; 255]%Z.
Definition large_white_frame : ndarray Z := solid 2 2 [255; 255; 255]%Z.

(** Two one-pixel frames, black at identity 1 and white at identity 2. *)
Definition black_white_heap : heap :=
  <[2%positive := Frame white_frame]> (<[1%positive := Frame black_frame]> ∅).

(** One frame (identity 1) in a list (identity 2). *)
Definition one_frame_heap : heap :=
  <[2%positive := PyList [1%positive]]> (<[1%positive := Frame black_frame]> ∅).

(** The empty list, at identity 1. *)
Definition empty_sequence_heap : heap := <[1%positive := PyList []]> ∅.

(** A 1x1 frame (identity 1) followed by a 2x2 frame (identity 2), in the
    list of identity 3. *)
Definition mismatched_heap : heap :=
  <[3%positive := PyList [1%positive; 2%positive]]>
    (<[2%positive := Frame large_white_frame]>
       (<[1%positive := Frame black_frame]> ∅)).

(** The same frames in the other order: 2x2 first, 1x1 second. *)
Definition broadcast_heap : heap :=
  <[3%positive := PyList [2%positive; 1%positive]]>
    (<[2%positive := Frame large_white_frame]>
       (<[1%positive := Frame black_frame]> ∅)).

(** Five 4x2 frames with every pixel [100, 150, 200] (identities 1 to 5),
    in the list of identity 6. *)
Definition five_solid_frames : list loc :=
  [1%positive; 2%positive; 3%positive; 4%positive; 5%positive].

Definition five_solid_heap : heap :=
  <[6%positive := PyList five_solid_frames]>
    (list_to_map (map (λ l, (l, Frame (solid 4 2 [100; 150; 200]%Z)))
                      five_solid_frames)).

(** * Sequences: indexing and slicing *)

Lemma py_index_lookup {A : Type} (l : list A) (n : nat) (x : A) :
  l !! n = Some x → py_index l (Z.of_nat n) = Returned x.
Proof.
  intros Hl. pose proof (lookup_lt_Some _ _ _ Hl) as Hn.
  unfold py_index, len.
  destruct (Z.ltb_spec (Z.of_nat n) 0) as [?|_]; [lia|].
  destruct (Z.leb_spec 0 (Z.of_nat n)) as [_|?]; [|lia].
  destruct (Z.ltb_spec (Z.of_nat n) (Z.of_nat (length l))) as [_|?]; [|lia].
  simpl. by rewrite Nat2Z.id, Hl.
Qed.

Lemma py_slice_inside {A : Type} (l : list A) (start stop : Z) :
  (0 ≤ start ≤ stop)%Z → (stop ≤ len l)%Z →
  py_slice l start stop = take (Z.to_nat (stop - start)) (drop (Z.to_nat start) l).
Proof.
  intros Hs He. unfold py_slice, slice_bound.
  destruct (Z.ltb_spec start 0) as [?|_]; [lia|].
  destruct (Z.ltb_spec stop 0) as [?|_]; [lia|].
  by rewrite !Z.min_l by lia.
Qed.

Lemma py_slice_length {A : Type} (l : list A) (start stop : Z) :
  (0 ≤ start ≤ stop)%Z → (stop ≤ len l)%Z →
  len (py_slice l start stop) = (stop - start)%Z.
Proof.
  intros Hs He. rewrite py_slice_inside by done. unfold len in *.
  rewrite length_take, length_drop. lia.
Qed.


Lemma py_slice_Forall {A : Type} (P : A → Prop) (l : list A) (start stop : Z) :
  Forall P l → Forall P (py_slice l start stop).
Proof. intros Hl. unfold py_slice. by apply Forall_take, Forall_drop. Qed.

Lemma py_slice_Forall2 {A B : Type} (P : A → B → Prop) (l : list A) (k : list B)
    (start stop : Z) :
  Forall2 P l k → Forall2 P (py_slice l start stop) (py_slice k start stop).
Proof.
  intros Hl. unfold py_slice, len. rewrite <- (Forall2_length _ _ _ Hl).
  by apply Forall2_take, Forall2_drop.
Qed.

Lemma range_length (n : Z) : length (range n) = Z.to_nat n.
Proof. unfold range. by rewrite length_map, length_seq. Qed.

Lemma range_lookup (n : Z) (k : nat) (i : Z) :
  range n !! k = Some i → i = Z.of_nat k ∧ (0 ≤ i < n)%Z.
Proof.
  unfold range. rewrite list_lookup_fmap. intros Hk.
  destruct (seq 0 (Z.to_nat n) !! k) as [j|] eqn:Hj; [|done].
  apply lookup_seq in Hj as [-> Hlt]. simpl in Hk. injection Hk as <-. lia.
Qed.

(** * The smoothing window *)

Lemma window_bounds (n window_size i : Z) :
  (0 ≤ window_size)%Z → (0 ≤ i < n)%Z →
  (0 ≤ start_idx i window_size ≤ i)%Z ∧ (i < end_idx n i window_size ≤ n)%Z.
Proof.
  intros Hw Hi.
  assert (0 ≤ window_size `div` 2)%Z as Hh by (apply Z.div_pos; lia).
  unfold start_idx, end_idx. lia.
Qed.

Lemma window_at_not_empty {A : Type} (fs : list A) (window_size : Z) (i : nat) :
  (0 ≤ window_size)%Z → (i < length fs)%nat →
  window_at fs window_size (Z.of_nat i) ≠ [].
Proof.
  intros Hw Hi Hnil.
  destruct (window_bounds (len fs) window_size (Z.of_nat i)) as [Hs He];
    [done|unfold len; lia|].
  pose proof (py_slice_length fs (start_idx (Z.of_nat i) window_size)
                (end_idx (len fs) (Z.of_nat i) window_size)) as Hlen.
  unfold window_at in Hnil. rewrite Hnil in Hlen. unfold len in *. simpl in Hlen. lia.
Qed.



(** * The weight vector *)

Lemma np_sum_divide (v : list R) (s : R) : np_sum (np_divide v s) = (np_sum v / s)%R.
Proof. induction v as [|a v IH]; simpl; [lra|]. rewrite IH. lra. Qed.

Lemma np_sum_nonneg (v : list R) : Forall (λ a, 0 <= a)%R v → (0 <= np_sum v)%R.
Proof. induction 1; simpl; lra. Qed.

Lemma np_sum_pos (v : list R) :
  v ≠ [] → Forall (λ a, 0 < a)%R v → (0 < np_sum v)%R.
Proof.
  intros Hne Hv. destruct Hv as [|a v Ha Hv]; [done|]. simpl.
  assert (0 <= np_sum v)%R.
  { apply np_sum_nonneg. eapply Forall_impl; [exact Hv|]. simpl. intros. lra. }
  lra.
Qed.


(** The unnormalised weights of the source are the Gaussian of the
    specification, for either decay literal. *)
Lemma raw_weights_gaussian (decay : R) (n : nat) (center_idx : Z) :
  np_exp (np_multiply (- decay) (np_square (np_subtract (np_arange n) center_idx)))
  = map (λ k, gaussian decay center_idx (Z.of_nat k)) (seq 0 n).
Proof.
  unfold np_exp, np_multiply, np_square, np_subtract, np_arange, gaussian.
  rewrite !map_map. apply map_ext. intros k.
  rewrite mult_IZR, minus_IZR. f_equal. ring.
Qed.

Lemma basic_weights_unfold (n : nat) (c : Z) :
  DiffusionService.basic_weights n c = normalised_gaussians 0.5 n c.
Proof.
  unfold DiffusionService.basic_weights, normalised_gaussians.
  replace (-0.5)%R with (Ropp 0.5) by lra. by rewrite raw_weights_gaussian.
Qed.

Lemma enhanced_weights_unfold (n : nat) (c : Z) :
  DiffusionService.enhanced_weights n c = normalised_gaussians 1.0 n c.
Proof.
  unfold DiffusionService.enhanced_weights, normalised_gaussians.
  replace (-1.0)%R with (Ropp 1.0) by lra. by rewrite raw_weights_gaussian.
Qed.

Section normalised.
Variables (decay : R) (n : nat) (center_idx : Z).

Lemma gaussian_sum_pos :
  (1 ≤ n)%nat →
  (0 < np_sum (map (λ k, gaussian decay center_idx (Z.of_nat k)) (seq 0 n)))%R.
Proof.
  intros Hn. apply np_sum_pos.
  - destruct n; [lia|done].
  - apply Forall_map, Forall_forall. intros k _. apply exp_pos.
Qed.

Lemma normalised_length : length (normalised_gaussians decay n center_idx) = n.
Proof.
  unfold normalised_gaussians, np_divide. by rewrite !length_map, length_seq.
Qed.



Lemma normalised_sum :
  (1 ≤ n)%nat → np_sum (normalised_gaussians decay n center_idx) = 1%R.
Proof.
  intros Hn. pose proof (gaussian_sum_pos Hn) as Hs.
  unfold normalised_gaussians. cbv zeta. rewrite np_sum_divide. field. lra.
Qed.
End normalised.



(** * Conversion to 8-bit samples *)

Lemma clip_bounds (x lo hi : R) : (lo <= hi)%R → (lo <= clip x lo hi <= hi)%R.
Proof.
  intros Hle. unfold clip, Rmin, Rmax.
  destruct (Rle_dec x lo); destruct (Rle_dec _ hi); lra.
Qed.

Lemma clip_inside (x lo hi : R) : (lo <= x <= hi)%R → clip x lo hi = x.
Proof.
  intros Hx. unfold clip, Rmin, Rmax.
  destruct (Rle_dec x lo); destruct (Rle_dec _ hi); lra.
Qed.

Lemma trunc_nonneg (x : R) : (0 <= x)%R → trunc x = Int_part x.
Proof. intros Hx. unfold trunc. by destruct (Rle_dec 0 x). Qed.

Lemma Int_part_between (x : R) (z : Z) :
  (IZR z <= x < IZR z + 1)%R → Int_part x = z.
Proof. intros Hx. symmetry. apply Int_part_spec. lra. Qed.

Lemma trunc_byte_range (x : R) : (0 <= x <= 255)%R → (0 ≤ trunc x ≤ 255)%Z.
Proof.
  intros [H0 H255]. rewrite trunc_nonneg by done.
  destruct (base_Int_part x) as [Hle Hgt]. split.
  - assert (-1 < IZR (Int_part x))%R as Hlt by lra.
    apply lt_IZR in Hlt. lia.
  - apply le_IZR. lra.
Qed.

Lemma trunc_IZR (z : Z) : (0 ≤ z)%Z → trunc (IZR z) = z.
Proof.
  intros Hz. rewrite trunc_nonneg by (by apply IZR_le).
  apply Int_part_between. lra.
Qed.

(** The sample stored for a clipped value: clipping makes the wrap-around
    of the 8-bit conversion vacuous. *)
Lemma sample_of_clipped (x : R) :
  (trunc (clip x 0 255) mod 256)%Z = trunc (clip x 0 255) ∧
  (0 ≤ trunc (clip x 0 255) ≤ 255)%Z.
Proof.
  assert (0 ≤ trunc (clip x 0 255) ≤ 255)%Z as Hr.
  { apply trunc_byte_range, clip_bounds. lra. }
  split; [|done]. apply Z.mod_small. lia.
Qed.

(** * The blending loop *)

Lemma iadd_same_shape (smoothed operand : ndarray R) :
  shape operand = shape smoothed →
  iadd smoothed operand
  = Returned (mk_ndarray (shape smoothed)
                (λ y x c, (item smoothed y x c + item operand y x c)%R)).
Proof.
  intros Hs. unfold iadd, broadcastable, axis_ok, axis_index, height, width, channels.
  rewrite Hs, !Nat.eqb_refl. reflexivity.
Qed.

Lemma iadd_shape (smoothed operand sm : ndarray R) :
  iadd smoothed operand = Returned sm → shape sm = shape smoothed.
Proof.
  unfold iadd. destruct (broadcastable _ _); [|done]. by intros [= <-].
Qed.

Lemma blend_loop (weights : list R) (float_frames : list (ndarray R)) :
  ∀ (j : nat) (acc : ndarray R),
    Forall (λ f, shape f = shape acc) float_frames →
    (j + length float_frames ≤ length weights)%nat →
    ∃ sm, foldM (blend_step weights) acc (enumerate_from (Z.of_nat j) float_frames)
          = Returned sm ∧
          shape sm = shape acc ∧
          ∀ y x c, item sm y x c
                   = (item acc y x c + weighted_sum (drop j weights) float_frames y x c)%R.
Proof.
  induction float_frames as [|f fs IH]; intros j acc Hsh Hlen.
  - exists acc. split; [done|]. split; [done|]. intros y x c.
    unfold weighted_sum. rewrite zip_with_nil_r. simpl. lra.
  - apply Forall_cons in Hsh as [Hf Hfs]. simpl in Hlen.
    destruct (lookup_lt_is_Some_2 weights j ltac:(lia)) as [w Hw].
    simpl. rewrite (py_index_lookup _ _ _ Hw). simpl.
    rewrite iadd_same_shape by done. simpl.
    replace (Z.of_nat j + 1)%Z with (Z.of_nat (S j)) by lia.
    destruct (IH (S j) (mk_ndarray (shape acc)
                 (λ y x c, (item acc y x c + item (scale w f) y x c)%R)))
      as (sm & Hrun & Hshape & Hitem); [done|lia|].
    exists sm. split; [done|]. split; [done|]. intros y x c.
    rewrite Hitem. simpl. unfold weighted_sum.
    rewrite (drop_S _ _ _ Hw). simpl. lra.
Qed.

Lemma blend_ok (weights : list R) (float_frames : list (ndarray R))
    (s : nat * nat * nat) :
  float_frames ≠ [] →
  Forall (λ f, shape f = s) float_frames →
  length weights = length float_frames →
  ∃ sm, blend weights float_frames = Returned sm ∧ shape sm = s ∧
        ∀ y x c, item sm y x c = weighted_sum weights float_frames y x c.
Proof.
  intros Hne Hs Hlen. unfold blend.
  destruct float_frames as [|f0 fs] eqn:Hff; [done|]. rewrite <- Hff in *.
  assert (py_index float_frames 0 = Returned f0) as ->.
  { apply (py_index_lookup _ 0). by rewrite Hff. }
  simpl. assert (shape f0 = s) as Hf0.
  { rewrite Hff in Hs. by apply Forall_cons in Hs as [? _]. }
  destruct (blend_loop weights float_frames 0 (np_zeros_like f0))
    as (sm & Hrun & Hshape & Hitem).
  - eapply Forall_impl; [exact Hs|]. simpl. intros f ->. by rewrite Hf0.
  - lia.
  - exists sm. split; [exact Hrun|]. split; [by rewrite Hshape|].
    intros y x c. rewrite Hitem, drop_0. simpl. lra.
Qed.

Lemma blend_loop_raises (weights : list R) (float_frames : list (ndarray R)) :
  ∀ (j : nat) (acc : ndarray R),
    Exists (λ f, broadcastable (shape f) (shape acc) = false) float_frames →
    (j + length float_frames ≤ length weights)%nat →
    foldM (blend_step weights) acc (enumerate_from (Z.of_nat j) float_frames)
    = Raised ValueError.
Proof.
  induction float_frames as [|f fs IH]; intros j acc Hex Hlen.
  - by apply Exists_nil in Hex.
  - simpl in Hlen.
    destruct (lookup_lt_is_Some_2 weights j ltac:(lia)) as [w Hw].
    simpl. rewrite (py_index_lookup _ _ _ Hw). simpl.
    destruct (iadd acc (scale w f)) as [acc'|e] eqn:Hadd.
    + simpl. replace (Z.of_nat j + 1)%Z with (Z.of_nat (S j)) by lia.
      apply IH; [|lia]. rewrite (iadd_shape _ _ _ Hadd).
      apply Exists_cons in Hex as [Hf|Hfs]; [|done].
      unfold iadd in Hadd. simpl in Hadd. by rewrite Hf in Hadd.
    + unfold iadd in Hadd. by destruct (broadcastable _ _); simplify_eq.
Qed.

(** A window with a frame that numpy cannot broadcast onto the first frame
    makes the blend raise. *)
Lemma blend_raises (weights : list R) (float_frames : list (ndarray R))
    (f0 : ndarray R) :
  float_frames !! 0%nat = Some f0 →
  Exists (λ f, broadcastable (shape f) (shape f0) = false) float_frames →
  length weights = length float_frames →
  blend weights float_frames = Raised ValueError.
Proof.
  intros Hf0 Hex Hlen. unfold blend.
  change 0%Z with (Z.of_nat 0). rewrite (py_index_lookup _ 0 _ Hf0). simpl.
  apply (blend_loop_raises weights float_frames 0); [done|lia].
Qed.

(** A frame that numpy can broadcast is added without any report. *)
Lemma blend_loop_broadcasts (weights : list R) (float_frames : list (ndarray R)) :
  ∀ (j : nat) (acc : ndarray R),
    Forall (λ f, broadcastable (shape f) (shape acc) = true) float_frames →
    (j + length float_frames ≤ length weights)%nat →
    ∃ sm, foldM (blend_step weights) acc (enumerate_from (Z.of_nat j) float_frames)
          = Returned sm ∧ shape sm = shape acc.
Proof.
  induction float_frames as [|f fs IH]; intros j acc Hok Hlen; [by exists acc|].
  apply Forall_cons in Hok as [Hf Hfs]. simpl in Hlen.
  destruct (lookup_lt_is_Some_2 weights j ltac:(lia)) as [w Hw].
  simpl. rewrite (py_index_lookup _ _ _ Hw). simpl.
  unfold iadd at 1. simpl. rewrite Hf. simpl.
  replace (Z.of_nat j + 1)%Z with (Z.of_nat (S j)) by lia.
  match goal with |- context [foldM _ ?acc' _] =>
    destruct (IH (S j) acc') as (sm & Hsm & Hshape); [done|lia|] end.
  by exists sm.
Qed.

Lemma weighted_sum_constant (float_frames : list (ndarray R)) (y x c : nat) (v : R) :
  ∀ weights : list R,
    Forall (λ f, item f y x c = v) float_frames →
    length weights = length float_frames →
    weighted_sum weights float_frames y x c = (v * np_sum weights)%R.
Proof.
  unfold weighted_sum.
  induction float_frames as [|f fs IH]; intros [|w ws] Hv Hlen; simpl in *;
    try lia; [lra|].
  apply Forall_cons in Hv as [-> Hv]. rewrite IH by (done || lia). lra.
Qed.

(** * Calls: heap reads, allocation, exceptions *)

Lemma bind_returned {A B : Type} (m : py A) (k : A → py B) (σ σ' : heap) (a : A) :
  m σ = (Returned a, σ') → (m ≫= k) σ = k a σ'.
Proof. intros Hm. unfold mbind, py_bind. by rewrite Hm. Qed.

Lemma bind_raised {A B : Type} (m : py A) (k : A → py B) (σ σ' : heap) (e : exn) :
  m σ = (Raised e, σ') → (m ≫= k) σ = (Raised e, σ').
Proof. intros Hm. unfold mbind, py_bind. by rewrite Hm. Qed.

Lemma bind_lift {A B : Type} (o : outcome A) (k : A → py B) (σ : heap) :
  (lift o ≫= k) σ = match o with
                    | Returned a => k a σ
                    | Raised e => (Raised e, σ)
                    end.
Proof. unfold mbind, py_bind, lift. by destruct o. Qed.

Lemma alloc_fresh (o : object) (σ : heap) :
  ∃ l, alloc o σ = (Returned l, <[l := o]> σ) ∧ σ !! l = None.
Proof.
  exists (fresh (dom σ)). split; [done|].
  apply not_elem_of_dom, is_fresh.
Qed.

Lemma get_list_ok (frames : loc) (fs : list loc) (σ : heap) :
  σ !! frames = Some (PyList fs) → get_list frames σ = (Returned fs, σ).
Proof. intros H. unfold get_list. by rewrite H. Qed.

Lemma mapM_py_cons {A B : Type} (f : A → py B) (x : A) (xs : list A) (σ : heap) :
  mapM_py f (x :: xs) σ
  = match f x σ with
    | (Returned y, σ1) =>
        match mapM_py f xs σ1 with
        | (Returned ys, σ2) => (Returned (y :: ys), σ2)
        | (Raised e, σ2) => (Raised e, σ2)
        end
    | (Raised e, σ1) => (Raised e, σ1)
    end.
Proof. reflexivity. Qed.

Lemma get_float_frame (l : loc) (σ : heap) :
  (get_frame l ≫= λ a, mret (astype_float32 a)) σ
  = match σ !! l with
    | Some (Frame a) => (Returned (astype_float32 a), σ)
    | _ => (Raised AttributeError, σ)
    end.
Proof.
  unfold mbind, py_bind, get_frame. by destruct (σ !! l) as [[items|a]|].
Qed.

Lemma read_float_frames_pure (window_frames : list loc) (σ : heap) :
  ∃ r, read_float_frames window_frames σ = (r, σ).
Proof.
  unfold read_float_frames.
  induction window_frames as [|l ls [r IH]]; [by eexists|].
  rewrite mapM_py_cons, get_float_frame.
  destruct (σ !! l) as [[items|a]|]; try by eexists.
  rewrite IH. destruct r; by eexists.
Qed.

Lemma read_float_frames_ok (window_frames : list loc) (arrs : list (ndarray Z))
    (σ : heap) :
  Forall2 (λ l a, σ !! l = Some (Frame a)) window_frames arrs →
  read_float_frames window_frames σ = (Returned (map astype_float32 arrs), σ).
Proof.
  unfold read_float_frames. induction 1 as [|l a ls arrs Hl _ IH]; [done|].
  by rewrite mapM_py_cons, get_float_frame, Hl, IH.
Qed.

(** * The kernels follow the common outline *)

Lemma _temporal_smooth_kernel (window_frames : list loc) (center_idx : Z) (σ : heap) :
  DiffusionService._temporal_smooth window_frames center_idx σ
  = kernel (blend (DiffusionService.basic_weights (length window_frames) center_idx))
      window_frames σ.
Proof.
  unfold DiffusionService._temporal_smooth, kernel.
  destruct (length window_frames =? 1)%nat; [done|].
  destruct (read_float_frames_pure window_frames σ) as [r Hr].
  fold (read_float_frames window_frames).
  destruct r as [ff|e]; [|by rewrite !(bind_raised _ _ _ _ _ Hr)].
  rewrite !(bind_returned _ _ _ _ _ Hr). cbv zeta. rewrite !bind_lift.
  unfold blend. destruct (py_index ff 0) as [first|e]; [|done].
  simpl. rewrite bind_lift. reflexivity.
Qed.

Lemma video_temporal_smooth_kernel (window_frames : list loc) (center_idx : Z)
    (σ : heap) :
  VideoProcessor._temporal_smooth window_frames center_idx σ
  = kernel (blend (DiffusionService.basic_weights (length window_frames) center_idx))
      window_frames σ.
Proof. exact (_temporal_smooth_kernel window_frames center_idx σ). Qed.

Lemma _enhanced_temporal_smooth_kernel (window_frames : list loc) (center_idx : Z)
    (σ : heap) :
  DiffusionService._enhanced_temporal_smooth window_frames center_idx σ
  = kernel (enhanced_blend
              (DiffusionService.enhanced_weights (length window_frames) center_idx)
              center_idx)
      window_frames σ.
Proof.
  unfold DiffusionService._enhanced_temporal_smooth, kernel.
  destruct (length window_frames =? 1)%nat; [done|].
  destruct (read_float_frames_pure window_frames σ) as [r Hr].
  fold (read_float_frames window_frames).
  destruct r as [ff|e]; [|by rewrite !(bind_raised _ _ _ _ _ Hr)].
  rewrite !(bind_returned _ _ _ _ _ Hr). cbv zeta. rewrite !bind_lift.
  unfold enhanced_blend, blend. destruct (py_index ff 0) as [first|e]; [|done].
  simpl. rewrite bind_lift.
  change (foldM (λ smoothed '(i, frame), _) ?a ?l)
    with (foldM (blend_step (DiffusionService.enhanced_weights
                               (length window_frames) center_idx)) a l).
  destruct (foldM _ _ _) as [sm|e]; [|done].
  simpl. rewrite bind_lift. destruct (py_index ff center_idx) as [center|e]; [|done].
  simpl. rewrite bind_lift. reflexivity.
Qed.

Lemma kernel_single (compute : list (ndarray R) → outcome (ndarray R)) (l : loc)
    (σ : heap) :
  kernel compute [l] σ = (Returned l, σ).
Proof. reflexivity. Qed.

Lemma kernel_ok (compute : list (ndarray R) → outcome (ndarray R))
    (window_frames : list loc) (arrs : list (ndarray Z)) (sm : ndarray R) (σ : heap) :
  Forall2 (λ l a, σ !! l = Some (Frame a)) window_frames arrs →
  length window_frames ≠ 1%nat →
  compute (map astype_float32 arrs) = Returned sm →
  kernel compute window_frames σ = alloc (Frame (astype_uint8 (np_clip sm 0 255))) σ.
Proof.
  intros Hpts Hlen Hc. unfold kernel.
  destruct (Nat.eqb_spec (length window_frames) 1) as [?|_]; [done|].
  rewrite (bind_returned _ _ _ _ _ (read_float_frames_ok _ _ _ Hpts)).
  by rewrite bind_lift, Hc.
Qed.

Lemma kernel_raises (compute : list (ndarray R) → outcome (ndarray R))
    (window_frames : list loc) (arrs : list (ndarray Z)) (e : exn) (σ : heap) :
  Forall2 (λ l a, σ !! l = Some (Frame a)) window_frames arrs →
  length window_frames ≠ 1%nat →
  compute (map astype_float32 arrs) = Raised e →
  kernel compute window_frames σ = (Raised e, σ).
Proof.
  intros Hpts Hlen Hc. unfold kernel.
  destruct (Nat.eqb_spec (length window_frames) 1) as [?|_]; [done|].
  rewrite (bind_returned _ _ _ _ _ (read_float_frames_ok _ _ _ Hpts)).
  by rewrite bind_lift, Hc.
Qed.

(** Whatever the window, a kernel call changes the heap by at most one new
    frame, which it then returns; it returns an existing object only for a
    one-frame window. *)
Lemma kernel_outcome (compute : list (ndarray R) → outcome (ndarray R)) :
  kernel_like (λ window_frames _, kernel compute window_frames).
Proof.
  intros window_frames _ σ.
  unfold kernel. destruct (Nat.eqb_spec (length window_frames) 1) as [Hlen|Hlen].
  - destruct window_frames as [|l [|??]]; try done.
    right. left. by exists l.
  - destruct (read_float_frames_pure window_frames σ) as [[ff|e] Hr].
    + rewrite (bind_returned _ _ _ _ _ Hr), bind_lift.
      destruct (compute ff) as [sm|e]; [|left; by exists e].
      destruct (alloc_fresh (Frame (astype_uint8 (np_clip sm 0 255))) σ)
        as (l & Hl & Hfresh).
      right. right. by exists l, (astype_uint8 (np_clip sm 0 255)).
    + left. exists e. by rewrite (bind_raised _ _ _ _ _ Hr).
Qed.

Lemma smoothing_kernel_like (smooth : list loc → Z → py loc) :
  smoothing_kernel smooth → kernel_like smooth.
Proof.
  intros Hsmooth ls c σ. destruct Hsmooth.
  - rewrite _temporal_smooth_kernel. apply (kernel_outcome _ ls c).
  - rewrite _enhanced_temporal_smooth_kernel. apply (kernel_outcome _ ls c).
  - rewrite video_temporal_smooth_kernel. apply (kernel_outcome _ ls c).
Qed.

Lemma kernel_raises_on_mismatch (smooth : list loc → Z → py loc)
    (window_frames : list loc) (arrs : list (ndarray Z)) (center_idx : Z)
    (k : nat) (a0 ak : ndarray Z) (σ : heap) :
  smoothing_kernel smooth →
  Forall2 (λ l a, σ !! l = Some (Frame a)) window_frames arrs →
  length window_frames ≠ 1%nat →
  arrs !! 0%nat = Some a0 → arrs !! k = Some ak →
  broadcastable (shape ak) (shape a0) = false →
  smooth window_frames center_idx σ = (Raised ValueError, σ).
Proof.
  intros Hsmooth Hpts Hlen H0 Hk Hbad.
  pose proof (Forall2_length _ _ _ Hpts) as Hlen'.
  assert (∀ weights, length weights = length window_frames →
            blend weights (map astype_float32 arrs) = Raised ValueError) as Hblend.
  { intros weights Hw. apply (blend_raises _ _ (astype_float32 a0)).
    - by rewrite list_lookup_fmap, H0.
    - apply Exists_exists. exists (astype_float32 ak). split; [|done].
      apply list_elem_of_lookup. exists k. by rewrite list_lookup_fmap, Hk.
    - rewrite length_map. congruence. }
  destruct Hsmooth.
  - rewrite _temporal_smooth_kernel. apply (kernel_raises _ _ arrs); [done..|].
    apply Hblend. rewrite basic_weights_unfold. apply normalised_length.
  - rewrite _enhanced_temporal_smooth_kernel. apply (kernel_raises _ _ arrs); [done..|].
    unfold enhanced_blend. rewrite Hblend; [done|].
    rewrite enhanced_weights_unfold. apply normalised_length.
  - rewrite video_temporal_smooth_kernel. apply (kernel_raises _ _ arrs); [done..|].
    apply Hblend. rewrite basic_weights_unfold. apply normalised_length.
Qed.

(** * Colour consistency *)





(** * The two kernels on a window of two or more frames *)

Section kernels.
Variables (σ : heap) (window_frames : list loc) (arrs : list (ndarray Z)).
Variables (center_idx : Z) (h w ch : nat).
Hypothesis frames_in_heap :
  Forall2 (λ l a, σ !! l = Some (Frame a)) window_frames arrs.
Hypothesis two_or_more : (2 ≤ length window_frames)%nat.
Hypothesis same_shape : Forall (λ a, shape a = (h, w, ch)) arrs.

Lemma float_frames_facts :
  map astype_float32 arrs ≠ [] ∧
  Forall (λ f, shape f = (h, w, ch)) (map astype_float32 arrs) ∧
  length (map astype_float32 arrs) = length window_frames.
Proof using frames_in_heap two_or_more same_shape.
  pose proof (Forall2_length _ _ _ frames_in_heap) as Hlen.
  split; [|split].
  - destruct arrs; simpl in *; [lia|done].
  - by apply Forall_map.
  - by rewrite length_map.
Qed.

Lemma _temporal_smooth_spec :
  ∃ l out,
    DiffusionService._temporal_smooth window_frames center_idx σ
    = (Returned l, <[l := Frame out]> σ) ∧
    σ !! l = None ∧ shape out = (h, w, ch) ∧
    ∀ y x c,
      item out y x c
      = trunc (clip (weighted_sum
                       (DiffusionService.basic_weights (length window_frames) center_idx)
                       (map astype_float32 arrs) y x c) 0 255).
Proof using frames_in_heap two_or_more same_shape.
  destruct float_frames_facts as (Hne & Hs & Hlen).
  rewrite _temporal_smooth_kernel.
  destruct (blend_ok (DiffusionService.basic_weights (length window_frames) center_idx)
              (map astype_float32 arrs) (h, w, ch) Hne Hs)
    as (sm & Hrun & Hshape & Hitem).
  { rewrite Hlen, basic_weights_unfold. apply normalised_length. }
  rewrite (kernel_ok _ _ arrs sm) by (done || lia).
  destruct (alloc_fresh (Frame (astype_uint8 (np_clip sm 0 255))) σ)
    as (l & -> & Hfresh).
  exists l, (astype_uint8 (np_clip sm 0 255)).
  split; [done|]. split; [done|]. split; [done|].
  intros y x c. simpl. rewrite Hitem. apply sample_of_clipped.
Qed.

Hypothesis center_in_window : (0 ≤ center_idx < len window_frames)%Z.

End kernels.

(** * A window of a black and a white frame *)


Lemma exp_double (x : R) : exp (2 * x) = (exp x * exp x)%R.
Proof. replace (2 * x)%R with (x + x)%R by lra. apply exp_plus. Qed.

(** [exp(-1/2)] to two digits, by repeated squaring of [1 + x <= exp x]. *)
Lemma exp_minus_half_digits : (0.604136 <= exp (- (1 / 2)) <= 0.60717)%R.
Proof.
  split.
  - pose proof (exp_ineq1_le (- (1 / 64))) as H64.
    pose proof (exp_double (- (1 / 64))) as E32.
    pose proof (exp_double (- (1 / 32))) as E16.
    pose proof (exp_double (- (1 / 16))) as E8.
    pose proof (exp_double (- (1 / 8))) as E4.
    pose proof (exp_double (- (1 / 4))) as E2.
    replace (2 * - (1 / 64))%R with (- (1 / 32))%R in E32 by lra.
    replace (2 * - (1 / 32))%R with (- (1 / 16))%R in E16 by lra.
    replace (2 * - (1 / 16))%R with (- (1 / 8))%R in E8 by lra.
    replace (2 * - (1 / 8))%R with (- (1 / 4))%R in E4 by lra.
    replace (2 * - (1 / 4))%R with (- (1 / 2))%R in E2 by lra.
    assert (0.968994 <= exp (- (1 / 32)))%R as B32 by (rewrite E32; nra).
    assert (0.938949 <= exp (- (1 / 16)))%R as B16 by (rewrite E16; nra).
    assert (0.881625 <= exp (- (1 / 8)))%R as B8 by (rewrite E8; nra).
    assert (0.777262 <= exp (- (1 / 4)))%R as B4 by (rewrite E4; nra).
    rewrite E2. nra.
  - pose proof (exp_ineq1_le (1 / 256)) as H256.
    pose proof (exp_double (1 / 256)) as E128.
    pose proof (exp_double (1 / 128)) as E64.
    pose proof (exp_double (1 / 64)) as E32.
    pose proof (exp_double (1 / 32)) as E16.
    pose proof (exp_double (1 / 16)) as E8.
    pose proof (exp_double (1 / 8)) as E4.
    pose proof (exp_double (1 / 4)) as E2.
    replace (2 * (1 / 256))%R with (1 / 128)%R in E128 by lra.
    replace (2 * (1 / 128))%R with (1 / 64)%R in E64 by lra.
    replace (2 * (1 / 64))%R with (1 / 32)%R in E32 by lra.
    replace (2 * (1 / 32))%R with (1 / 16)%R in E16 by lra.
    replace (2 * (1 / 16))%R with (1 / 8)%R in E8 by lra.
    replace (2 * (1 / 8))%R with (1 / 4)%R in E4 by lra.
    replace (2 * (1 / 4))%R with (1 / 2)%R in E2 by lra.
    assert (1.007827 <= exp (1 / 128))%R as B128 by (rewrite E128; nra).
    assert (1.015715 <= exp (1 / 64))%R as B64 by (rewrite E64; nra).
    assert (1.031676 <= exp (1 / 32))%R as B32 by (rewrite E32; nra).
    assert (1.064355 <= exp (1 / 16))%R as B16 by (rewrite E16; nra).
    assert (1.132851 <= exp (1 / 8))%R as B8 by (rewrite E8; nra).
    assert (1.283351 <= exp (1 / 4))%R as B4 by (rewrite E4; nra).
    assert (1.646989 <= exp (1 / 2))%R as B2 by (rewrite E2; nra).
    rewrite exp_Ropp.
    assert (/ exp (1 / 2) * exp (1 / 2) = 1)%R as Hinv by (apply Rinv_l; lra).
    assert (0 < / exp (1 / 2))%R as Hpos by (apply Rinv_0_lt_compat; lra).
    nra.
Qed.




Lemma basic_weights_pair :
  DiffusionService.basic_weights 2 0
  = [(1 / (1 + exp (- (1 / 2))))%R; (exp (- (1 / 2)) / (1 + exp (- (1 / 2))))%R].
Proof.
  rewrite basic_weights_unfold. unfold normalised_gaussians.
  assert (gaussian 0.5 0 (Z.of_nat 0) = 1%R) as H0.
  { unfold gaussian. change (Z.of_nat 0) with 0%Z.
    transitivity (exp 0); [f_equal; simpl; lra | apply exp_0]. }
  assert (gaussian 0.5 0 (Z.of_nat 1) = exp (- (1 / 2))) as H1.
  { unfold gaussian. change (Z.of_nat 1) with 1%Z. f_equal. simpl. lra. }
  cbn [seq map np_sum foldr np_divide]. rewrite H0, H1.
  f_equal; [|f_equal]; f_equal; lra.
Qed.

Lemma white_black_in_heap :
  Forall2 (λ l a, black_white_heap !! l = Some (Frame a))
          [2%positive; 1%positive] [white_frame; black_frame].
Proof. repeat constructor. Qed.

(** The basic blend of the window [white, black] centred on white. *)
Lemma white_black_blend (y x c : nat) :
  (c < 3)%nat →
  weighted_sum (DiffusionService.basic_weights 2 0)
    (map astype_float32 [white_frame; black_frame]) y x c
  = (255 / (1 + exp (- (1 / 2))))%R.
Proof.
  intros Hc. rewrite basic_weights_pair. unfold weighted_sum. simpl.
  destruct c as [|[|[|c]]]; try lia; simpl; lra.
Qed.

(** * Claims on the kernels *)




(** In basic mode the conversion to an integer is a truncation: on the
    window [white, black] centred on white the weighted sum is 255 / (1 +
    exp(-1/2)), about 158.73, and the sample that is returned is 158. *)
Lemma basic_output_is_truncated :
  ∃ l out,
    DiffusionService._temporal_smooth [2%positive; 1%positive] 0 black_white_heap
    = (Returned l, <[l := Frame out]> black_white_heap) ∧
    item out 0 0 0 = 158%Z ∧
    (158.5 < weighted_sum (DiffusionService.basic_weights 2 0)
               (map astype_float32 [white_frame; black_frame]) 0 0 0 < 159)%R.
Proof.
  destruct (_temporal_smooth_spec black_white_heap [2%positive; 1%positive]
              [white_frame; black_frame] 0 1 1 3 white_black_in_heap)
    as (l & out & Hrun & _ & _ & Hitem).
  { simpl. lia. }
  { repeat constructor. }
  exists l, out. split; [exact Hrun|]. rewrite Hitem. clear Hitem Hrun.
  rewrite !white_black_blend by lia.
  destruct exp_minus_half_digits as [Hlo Hhi].
  set (t := exp (- (1 / 2))) in *.
  assert (158.6 <= 255 / (1 + t) <= 158.97)%R as Hb.
  { assert (0 < 1 + t)%R by lra. split.
    - apply Rmult_le_reg_r with (1 + t)%R; [done|]. field_simplify; lra.
    - apply Rmult_le_reg_r with (1 + t)%R; [done|]. field_simplify; lra. }
  set (b := (255 / (1 + t))%R) in *. clearbody b. clear Hlo Hhi t.
  split; [|lra].
  rewrite clip_inside by lra. rewrite trunc_nonneg by lra.
  apply Int_part_between; lra.
Qed.



(** * The loop over the output indices *)

Lemma _apply_temporal_consistency_unfold :
  DiffusionService._apply_temporal_consistency
  = apply_with DiffusionService._temporal_smooth.
Proof. reflexivity. Qed.

Lemma _apply_enhanced_temporal_consistency_unfold :
  DiffusionService._apply_enhanced_temporal_consistency
  = apply_with DiffusionService._enhanced_temporal_smooth.
Proof. reflexivity. Qed.

Lemma apply_temporal_consistency_unfold :
  VideoProcessor.apply_temporal_consistency
  = apply_with VideoProcessor._temporal_smooth.
Proof. reflexivity. Qed.

Lemma entry_point_kernel (entry : loc → Z → py loc) :
  entry ∈ entry_points →
  ∃ smooth, smoothing_kernel smooth ∧ entry = apply_with smooth.
Proof.
  intros Hentry. repeat (apply elem_of_cons in Hentry as [->|Hentry]).
  - exists DiffusionService._temporal_smooth. split; [constructor|done].
  - exists DiffusionService._enhanced_temporal_smooth. split; [constructor|done].
  - exists VideoProcessor._temporal_smooth. split; [constructor|done].
  - by apply elem_of_nil in Hentry.
Qed.

(** Invariant rule for [for x in xs]: [I k] holds before iteration [k];
    [E] holds of the heap in which an iteration raises. *)
Lemma for_rule {A : Type} (body : A → py unit) (E : heap → Prop) (xs : list A) :
  ∀ (I : nat → heap → Prop) (σ : heap),
    I 0%nat σ →
    (∀ k x σk, xs !! k = Some x → I k σk →
       match body x σk with
       | (Returned _, σ') => I (S k) σ'
       | (Raised _, σ') => E σ'
       end) →
    match for_ xs body σ with
    | (Returned _, σ') => I (length xs) σ'
    | (Raised _, σ') => E σ'
    end.
Proof.
  induction xs as [|x xs IH]; intros I σ H0 Hstep; [done|].
  simpl. unfold mbind at 1, py_bind.
  pose proof (Hstep 0%nat x σ eq_refl H0) as Hx.
  destruct (body x σ) as [[[]|e] σ1]; [|done].
  apply (IH (λ k, I (S k))); [done|].
  intros k y σk Hk HI. by apply (Hstep (S k)).
Qed.

Lemma keeps_frames_extend (σ σ' : heap) : σ ⊆ σ' → keeps_frames σ σ'.
Proof. intros Hsub l a Hl. by eapply lookup_weaken. Qed.

Lemma keeps_frames_append (σ : heap) (l : loc) (items items' : list loc) :
  σ !! l = Some (PyList items) → keeps_frames σ (<[l := PyList items']> σ).
Proof.
  intros Hl l' a Hl'. rewrite lookup_insert_ne; [done|]. intros ->. congruence.
Qed.

Lemma apply_with_pass_through (smooth : list loc → Z → py loc) (frames : loc)
    (fs : list loc) (window_size : Z) (σ : heap) :
  σ !! frames = Some (PyList fs) → (len fs < window_size)%Z →
  apply_with smooth frames window_size σ = (Returned frames, σ).
Proof.
  intros Hl Hlt. unfold apply_with, try_except.
  rewrite (bind_returned _ _ _ _ _ (get_list_ok _ _ _ Hl)).
  apply Z.ltb_lt in Hlt. by rewrite Hlt.
Qed.

Lemma apply_with_loop (smooth : list loc → Z → py loc) (frames : loc)
    (fs : list loc) (window_size : Z) (σ : heap) :
  σ !! frames = Some (PyList fs) → (window_size ≤ len fs)%Z →
  ∃ L, σ !! L = None ∧
    apply_with smooth frames window_size σ
    = match for_ (range (len fs)) (loop_body smooth frames window_size L)
              (<[L := PyList []]> σ) with
      | (Returned _, σ') => (Returned L, σ')
      | (Raised _, σ') => (Returned frames, σ')
      end.
Proof.
  intros Hl Hge. destruct (alloc_fresh (PyList []) σ) as (L & HL & Hfresh).
  exists L. split; [done|]. unfold apply_with, try_except.
  rewrite (bind_returned _ _ _ _ _ (get_list_ok _ _ _ Hl)).
  destruct (Z.ltb_spec (len fs) window_size) as [?|_]; [lia|].
  rewrite (bind_returned _ _ _ _ _ HL).
  unfold mbind at 1, py_bind.
  change (for_ (range (len fs)) _)
    with (for_ (range (len fs)) (loop_body smooth frames window_size L)).
  by destruct (for_ _ _ _) as [[[]|e] σ'].
Qed.

Lemma loop_body_step (smooth : list loc → Z → py loc) (frames L : loc)
    (fs acc : list loc) (window_size i : Z) (σ : heap) :
  kernel_like smooth →
  σ !! frames = Some (PyList fs) → σ !! L = Some (PyList acc) →
  (∃ e, smooth (window_at fs window_size i) (center_at window_size i) σ
        = (Raised e, σ) ∧
        loop_body smooth frames window_size L i σ = (Raised e, σ)) ∨
  (∃ l σ', smooth (window_at fs window_size i) (center_at window_size i) σ
           = (Returned l, σ') ∧
           σ ⊆ σ' ∧
           loop_body smooth frames window_size L i σ
           = (Returned tt, <[L := PyList (acc ++ [l])]> σ')).
Proof.
  intros Hk Hfs HL. unfold loop_body.
  rewrite (bind_returned _ _ _ _ _ (get_list_ok _ _ _ Hfs)).
  destruct (Hk (window_at fs window_size i) (center_at window_size i) σ)
    as [[e He]|[(l & Hw & Hl)|(l & a & Hfresh & Hl)]].
  - left. exists e. split; [done|]. by rewrite (bind_raised _ _ _ _ _ He).
  - right. exists l, σ. split; [done|]. split; [done|].
    rewrite (bind_returned _ _ _ _ _ Hl). unfold list_append. by rewrite HL.
  - right. exists l, (<[l := Frame a]> σ). split; [done|].
    split; [by apply insert_subseteq|].
    rewrite (bind_returned _ _ _ _ _ Hl). unfold list_append.
    rewrite lookup_insert_ne by congruence. by rewrite HL.
Qed.

Section apply_with.
Variables (smooth : list loc → Z → py loc) (frames : loc) (window_size : Z).
Variables (σ : heap) (fs : list loc).
Hypothesis frames_is_list : σ !! frames = Some (PyList fs).

(** Whatever the kernel does, the call returns: the input list itself, or a
    new list with one entry per input frame; nothing that existed before the
    call is changed. *)
Lemma apply_with_total :
  kernel_like smooth →
  ∃ r σ', apply_with smooth frames window_size σ = (Returned r, σ') ∧ σ ⊆ σ' ∧
          (r = frames ∨
           σ !! r = None ∧ (window_size ≤ len fs)%Z ∧
           ∃ out, σ' !! r = Some (PyList out) ∧ length out = length fs).
Proof using frames_is_list.
  intros Hk. destruct (Z.lt_ge_cases (len fs) window_size) as [Hlt|Hge].
  { exists frames, σ. rewrite (apply_with_pass_through _ _ fs) by done. auto. }
  destruct (apply_with_loop smooth frames fs window_size σ frames_is_list Hge)
    as (L & HL & ->).
  pose proof (for_rule (loop_body smooth frames window_size L) (λ σ', σ ⊆ σ')
                (range (len fs))
                (λ k σk, σ ⊆ σk ∧ ∃ acc, σk !! L = Some (PyList acc) ∧ length acc = k)
                (<[L := PyList []]> σ)) as Hloop.
  lapply Hloop; clear Hloop.
  2:{ split; [by apply insert_subseteq|]. exists []. by rewrite lookup_insert_eq. }
  intros Hloop. lapply Hloop; clear Hloop.
  2:{ intros k x σk Hx (Hsub & acc & Hacc & Hlen).
      destruct (loop_body_step smooth frames L fs acc window_size x σk Hk)
        as [(e & _ & ->)|(l & σ1 & _ & Hsub1 & ->)];
        [by eapply lookup_weaken|done|done|].
      split; [apply insert_subseteq_r; [done|by etrans]|].
      exists (acc ++ [l]). rewrite lookup_insert_eq. split; [done|].
      rewrite length_app. simpl. lia. }
  destruct (for_ _ _ _) as [[[]|e] σ'].
  - intros (Hsub & acc & Hacc & Hlen).
    exists L, σ'. split; [done|]. split; [done|]. right. split; [done|].
    split; [done|]. exists acc. split; [done|].
    rewrite Hlen, range_length. unfold len. lia.
  - intros Hsub. exists frames, σ'. split; [done|]. split; [done|]. by left.
Qed.

(** When the kernel returns on every window and its result satisfies [P],
    a property of frames that later allocations cannot spoil, the call
    returns a new list whose entries satisfy [P]. *)
Lemma apply_with_returns (P : nat → loc → heap → Prop) :
  (window_size ≤ len fs)%Z →
  (∀ i l σ1 σ2, P i l σ1 → keeps_frames σ1 σ2 → P i l σ2) →
  (∀ (i : nat) σi, (i < length fs)%nat → σ ⊆ σi →
     ∃ l σi', smooth (window_at fs window_size (Z.of_nat i))
                     (center_at window_size (Z.of_nat i)) σi
              = (Returned l, σi') ∧
              σi ⊆ σi' ∧ P i l σi') →
  ∃ r out σ', apply_with smooth frames window_size σ = (Returned r, σ') ∧
              σ !! r = None ∧ σ ⊆ σ' ∧ σ' !! r = Some (PyList out) ∧
              length out = length fs ∧
              ∀ i l, out !! i = Some l → P i l σ'.
Proof using frames_is_list.
  intros Hge Hstable Hbody.
  destruct (apply_with_loop smooth frames fs window_size σ frames_is_list Hge)
    as (L & HL & ->).
  pose proof (for_rule (loop_body smooth frames window_size L) (λ _, False)
                (range (len fs))
                (λ k σk, σ ⊆ σk ∧ ∃ acc, σk !! L = Some (PyList acc) ∧ length acc = k ∧
                         ∀ i l, acc !! i = Some l → P i l σk)
                (<[L := PyList []]> σ)) as Hloop.
  lapply Hloop; clear Hloop.
  2:{ split; [by apply insert_subseteq|]. exists []. by rewrite lookup_insert_eq. }
  intros Hloop. lapply Hloop; clear Hloop.
  2:{ intros k x σk Hx (Hsub & acc & Hacc & Hlen & HP).
      apply range_lookup in Hx as [-> Hx].
      destruct (Hbody k σk) as (l & σ1 & Hrun & Hsub1 & HPl);
        [unfold len in Hx; lia|done|].
      unfold loop_body.
      rewrite (bind_returned _ _ _ _ _
                 (get_list_ok _ _ _ (lookup_weaken _ _ _ _ frames_is_list Hsub))).
      rewrite (bind_returned _ _ _ _ _ Hrun). unfold list_append.
      rewrite (lookup_weaken _ _ _ _ Hacc Hsub1).
      assert (keeps_frames σ1 (<[L := PyList (acc ++ [l])]> σ1)) as Hkeep.
      { eapply keeps_frames_append, lookup_weaken; done. }
      split; [apply insert_subseteq_r; [done|by etrans]|].
      exists (acc ++ [l]). rewrite lookup_insert_eq. split; [done|].
      split; [rewrite length_app; simpl; lia|].
      intros i l' Hi. apply lookup_app_Some in Hi as [Hi|[Hge' Hi]].
      - eapply Hstable; [|exact Hkeep].
        eapply Hstable; [by apply HP|by apply keeps_frames_extend].
      - apply list_lookup_singleton_Some in Hi as [Hi <-].
        replace i with k by lia. by eapply Hstable. }
  destruct (for_ _ _ _) as [[[]|e] σ']; [|done].
  intros (Hsub & acc & Hacc & Hlen & HP).
  exists L, acc, σ'. do 4 (split; [done|]). split; [|done].
  rewrite Hlen, range_length. unfold len. lia.
Qed.

(** When the kernel raises on the window of some index, the handler returns
    the input list. *)
Lemma apply_with_raises (i0 : nat) :
  kernel_like smooth →
  (window_size ≤ len fs)%Z → (i0 < length fs)%nat →
  (∀ σi, σ ⊆ σi →
     ∃ e, smooth (window_at fs window_size (Z.of_nat i0))
                 (center_at window_size (Z.of_nat i0)) σi = (Raised e, σi)) →
  ∃ σ', apply_with smooth frames window_size σ = (Returned frames, σ') ∧ σ ⊆ σ'.
Proof using frames_is_list.
  intros Hk Hge Hi0 Hraise.
  destruct (apply_with_loop smooth frames fs window_size σ frames_is_list Hge)
    as (L & HL & ->).
  pose proof (for_rule (loop_body smooth frames window_size L) (λ σ', σ ⊆ σ')
                (range (len fs))
                (λ k σk, (k ≤ i0)%nat ∧ σ ⊆ σk ∧ ∃ acc, σk !! L = Some (PyList acc))
                (<[L := PyList []]> σ)) as Hloop.
  lapply Hloop; clear Hloop.
  2:{ split; [lia|]. split; [by apply insert_subseteq|].
      exists []. by rewrite lookup_insert_eq. }
  intros Hloop. lapply Hloop; clear Hloop.
  2:{ intros k x σk Hx (Hle & Hsub & acc & Hacc).
      apply range_lookup in Hx as [-> Hx].
      destruct (loop_body_step smooth frames L fs acc window_size (Z.of_nat k) σk Hk)
        as [(e & _ & ->)|(l & σ1 & Hrun & Hsub1 & ->)];
        [by eapply lookup_weaken|done|done|].
      destruct (decide (k = i0)) as [->|Hne].
      { destruct (Hraise σk Hsub) as [e He]. congruence. }
      split; [lia|]. split; [apply insert_subseteq_r; [done|by etrans]|].
      exists (acc ++ [l]). by rewrite lookup_insert_eq. }
  destruct (for_ _ _ _) as [[[]|e] σ'].
  - intros (Hle & _). rewrite range_length in Hle. unfold len in Hle. lia.
  - intros Hsub. by exists σ'.
Qed.
End apply_with.

(** * Claims on the entry points *)

(** C10.  The basic smoother of [DiffusionService] and the smoother of
    [VideoProcessor] are the same function of the frames, the window size
    and the heap: same returned object, same final heap, and so are their
    kernels.  Only the default window sizes differ, 3 and 5. *)
Theorem basic_smoothers_agree (frames : loc) (window_size : Z) (σ : heap) :
  DiffusionService._apply_temporal_consistency frames window_size σ
  = VideoProcessor.apply_temporal_consistency frames window_size σ
  ∧ (∀ window_frames center_idx,
       DiffusionService._temporal_smooth window_frames center_idx σ
       = VideoProcessor._temporal_smooth window_frames center_idx σ)
  ∧ DiffusionService.default_window_size = 3%Z
  ∧ VideoProcessor.default_window_size = 5%Z.
Proof. repeat split. Qed.

(** C5.  When [len(frames) < window_size] each of the three entry points
    returns the object [frames] itself and leaves the heap as it was: the
    result is [frames], element for element, and no exception is raised. *)
Theorem short_sequence_passes_through (σ : heap) (frames : loc) (fs : list loc)
    (window_size : Z) :
  σ !! frames = Some (PyList fs) → (len fs < window_size)%Z →
  DiffusionService._apply_temporal_consistency frames window_size σ
  = (Returned frames, σ) ∧
  DiffusionService._apply_enhanced_temporal_consistency frames window_size σ
  = (Returned frames, σ) ∧
  VideoProcessor.apply_temporal_consistency frames window_size σ
  = (Returned frames, σ).
Proof.
  intros Hl Hlt.
  rewrite _apply_temporal_consistency_unfold,
    _apply_enhanced_temporal_consistency_unfold, apply_temporal_consistency_unfold.
  split; [|split]; by apply (apply_with_pass_through _ _ fs).
Qed.

Lemma short_sequence_passes_through_witness :
  VideoProcessor.apply_temporal_consistency 2%positive 5 one_frame_heap
  = (Returned 2%positive, one_frame_heap).
Proof.
  apply (short_sequence_passes_through one_frame_heap 2%positive [1%positive] 5).
  - reflexivity.
  - unfold len. simpl. lia.
Defined.

(** ** The empty sequence *)

Lemma apply_with_empty (smooth : list loc → Z → py loc) (frames : loc)
    (window_size : Z) (σ : heap) :
  σ !! frames = Some (PyList []) →
  ∃ r σ', apply_with smooth frames window_size σ = (Returned r, σ') ∧
          σ ⊆ σ' ∧ σ' !! r = Some (PyList []) ∧
          ((0 < window_size)%Z → r = frames ∧ σ' = σ) ∧
          ((window_size ≤ 0)%Z → σ !! r = None).
Proof.
  intros Hl. destruct (Z.lt_ge_cases 0 window_size) as [Hpos|Hneg].
  - exists frames, σ. rewrite (apply_with_pass_through _ _ []) by done.
    split; [done|]. split; [done|]. split; [done|]. split; [done|lia].
  - destruct (apply_with_loop smooth frames [] window_size σ Hl Hneg)
      as (L & HL & ->). simpl.
    exists L, (<[L := PyList []]> σ). split; [done|].
    split; [by apply insert_subseteq|]. split; [by rewrite lookup_insert_eq|].
    split; [lia|done].
Qed.

(** C6, as amended.  On the empty sequence no entry point fails, whatever
    the window size: the call returns an empty sequence, which is the input
    list itself (heap unchanged) when [window_size > 0] and a new empty list
    otherwise. *)
Theorem empty_sequence_is_returned (σ : heap) (frames : loc) (window_size : Z) :
  σ !! frames = Some (PyList []) →
  ∀ entry, entry ∈ entry_points →
    ¬ raises (entry frames window_size) σ ∧
    ∃ r σ', entry frames window_size σ = (Returned r, σ') ∧
            σ ⊆ σ' ∧ σ' !! r = Some (PyList []) ∧
            ((0 < window_size)%Z → r = frames ∧ σ' = σ) ∧
            ((window_size ≤ 0)%Z → σ !! r = None).
Proof.
  intros Hl entry Hentry.
  destruct (entry_point_kernel entry Hentry) as (smooth & _ & ->).
  destruct (apply_with_empty smooth frames window_size σ Hl)
    as (r & σ' & Hrun & Hrest).
  split; [|by exists r, σ'].
  intros [e He]. by rewrite Hrun in He.
Qed.

Lemma empty_sequence_is_returned_witness :
  VideoProcessor.apply_temporal_consistency 1%positive 5 empty_sequence_heap
  = (Returned 1%positive, empty_sequence_heap).
Proof.
  destruct (empty_sequence_is_returned empty_sequence_heap 1%positive 5 eq_refl
              VideoProcessor.apply_temporal_consistency)
    as [_ (r & σ' & Hrun & _ & _ & Hpos & _)].
  - unfold entry_points. set_solver.
  - destruct Hpos as [-> ->]; [lia|]. exact Hrun.
Defined.

(** C6 as stated fails: on the empty sequence, with the default window
    size, the call returns the empty list instead of raising. *)
Lemma empty_sequence_does_not_fail :
  ¬ raises (DiffusionService._apply_enhanced_temporal_consistency 1%positive
              DiffusionService.default_enhanced_window_size) empty_sequence_heap
  ∧ DiffusionService._apply_enhanced_temporal_consistency 1%positive
      DiffusionService.default_enhanced_window_size empty_sequence_heap
    = (Returned 1%positive, empty_sequence_heap).
Proof.
  assert (DiffusionService._apply_enhanced_temporal_consistency 1%positive
            DiffusionService.default_enhanced_window_size empty_sequence_heap
          = (Returned 1%positive, empty_sequence_heap)) as Hrun.
  { rewrite _apply_enhanced_temporal_consistency_unfold.
    by apply (apply_with_pass_through _ _ []). }
  split; [|done]. intros [e He]. by rewrite Hrun in He.
Qed.

(** ** Length, identity of the result, and the input after the call *)




(** ** Frames of unequal shape *)

Lemma mismatch_returns_input (smooth : list loc → Z → py loc) (σ : heap)
    (frames : loc) (fs : list loc) (arrs : list (ndarray Z)) (window_size : Z)
    (i k : nat) (a0 ak : ndarray Z) :
  smoothing_kernel smooth →
  σ !! frames = Some (PyList fs) →
  Forall2 (λ l a, σ !! l = Some (Frame a)) fs arrs →
  (i < length fs)%nat →
  length (window_at arrs window_size (Z.of_nat i)) ≠ 1%nat →
  window_at arrs window_size (Z.of_nat i) !! 0%nat = Some a0 →
  window_at arrs window_size (Z.of_nat i) !! k = Some ak →
  broadcastable (shape ak) (shape a0) = false →
  ∃ σ', apply_with smooth frames window_size σ = (Returned frames, σ') ∧ σ ⊆ σ'.
Proof.
  intros Hsmooth Hl Hpts Hi Hlen H0 Hk Hbad.
  destruct (Z.lt_ge_cases (len fs) window_size) as [Hlt|Hge].
  { exists σ. by rewrite (apply_with_pass_through _ _ fs). }
  assert (Forall2 (λ l a, σ !! l = Some (Frame a))
            (window_at fs window_size (Z.of_nat i))
            (window_at arrs window_size (Z.of_nat i))) as Hwin.
  { unfold window_at, len. rewrite <- (Forall2_length _ _ _ Hpts).
    by apply py_slice_Forall2. }
  apply (apply_with_raises smooth frames window_size σ fs Hl i);
    [by apply smoothing_kernel_like|done|done|].
  intros σi Hsub. exists ValueError.
  apply (kernel_raises_on_mismatch smooth _
           (window_at arrs window_size (Z.of_nat i)) _ k a0 ak); try done.
  - eapply Forall2_impl; [exact Hwin|]. simpl. intros l a Hla.
    by eapply lookup_weaken.
  - by rewrite (Forall2_length _ _ _ Hwin).
Qed.

(** C7, as amended.  Frames of unequal shape are never reported to the
    caller: no entry point raises, on any sequence of frames.  When the
    window of some output index has two or more frames and holds a frame
    that numpy cannot broadcast onto the first frame of the window, the
    ValueError of the blend is caught and the input list is returned, every
    object of the input unchanged. *)
Theorem shape_mismatch_is_never_reported (σ : heap) (frames : loc) (fs : list loc)
    (arrs : list (ndarray Z)) (window_size : Z) :
  σ !! frames = Some (PyList fs) →
  Forall2 (λ l a, σ !! l = Some (Frame a)) fs arrs →
  ∀ entry, entry ∈ entry_points →
    ¬ raises (entry frames window_size) σ ∧
    ∀ (i k : nat) (a0 ak : ndarray Z),
      (i < length fs)%nat →
      length (window_at arrs window_size (Z.of_nat i)) ≠ 1%nat →
      window_at arrs window_size (Z.of_nat i) !! 0%nat = Some a0 →
      window_at arrs window_size (Z.of_nat i) !! k = Some ak →
      broadcastable (shape ak) (shape a0) = false →
      ∃ σ', entry frames window_size σ = (Returned frames, σ') ∧ σ ⊆ σ'.
Proof.
  intros Hl Hpts entry Hentry.
  destruct (entry_point_kernel entry Hentry) as (smooth & Hsmooth & ->). split.
  - destruct (apply_with_total smooth frames window_size σ fs Hl
                (smoothing_kernel_like _ Hsmooth)) as (r & σ' & Hrun & _).
    intros [e He]. by rewrite Hrun in He.
  - intros i k a0 ak Hi Hlen H0 Hk Hbad.
    by apply (mismatch_returns_input smooth σ frames fs arrs window_size i k a0 ak).
Qed.

Lemma mismatched_frames_in_heap :
  Forall2 (λ l a, mismatched_heap !! l = Some (Frame a))
          [1%positive; 2%positive] [black_frame; large_white_frame].
Proof. repeat constructor. Qed.

Lemma shape_mismatch_is_never_reported_witness :
  ∃ σ', DiffusionService._apply_temporal_consistency 3%positive 2 mismatched_heap
        = (Returned 3%positive, σ') ∧ mismatched_heap ⊆ σ'.
Proof.
  destruct (shape_mismatch_is_never_reported mismatched_heap 3%positive
              [1%positive; 2%positive] [black_frame; large_white_frame] 2
              eq_refl mismatched_frames_in_heap
              DiffusionService._apply_temporal_consistency) as [_ H].
  - unfold entry_points. set_solver.
  - apply (H 0%nat 1%nat black_frame large_white_frame);
      [simpl; lia | simpl; lia | reflexivity | reflexivity | reflexivity].
Defined.

(** C7 as stated fails: a 1x1 frame followed by a 2x2 frame, window size 2.
    The blend of the first window raises inside numpy, the handler catches
    it, and the call returns the input list instead of failing. *)
Lemma shape_mismatch_does_not_fail :
  ¬ raises (DiffusionService._apply_temporal_consistency 3%positive 2) mismatched_heap
  ∧ ∃ σ', DiffusionService._apply_temporal_consistency 3%positive 2 mismatched_heap
          = (Returned 3%positive, σ').
Proof.
  destruct (mismatch_returns_input DiffusionService._temporal_smooth mismatched_heap
              3%positive [1%positive; 2%positive]
              [black_frame; large_white_frame] 2 0 1
              black_frame large_white_frame)
    as (σ' & Hrun & _);
    [constructor | reflexivity | apply mismatched_frames_in_heap | simpl; lia
    | simpl; lia | reflexivity | reflexivity | reflexivity |].
  rewrite _apply_temporal_consistency_unfold. split; [|by exists σ'].
  intros [e He]. by rewrite Hrun in He.
Qed.

(** The other order, 2x2 then 1x1: numpy broadcasts the small frame onto the
    large one and the call returns a new list of two 2x2 frames. *)
Lemma unequal_frames_are_blended_silently :
  ∃ r out σ',
    DiffusionService._apply_temporal_consistency 3%positive 2 broadcast_heap
    = (Returned r, σ') ∧
    broadcast_heap !! r = None ∧ σ' !! r = Some (PyList out) ∧ length out = 2%nat ∧
    Forall (λ l, ∃ a, σ' !! l = Some (Frame a) ∧ shape a = (2, 2, 3)%nat) out.
Proof.
  destruct (apply_with_returns DiffusionService._temporal_smooth 3%positive 2
              broadcast_heap [2%positive; 1%positive] eq_refl
              (λ _ l σ', ∃ a, σ' !! l = Some (Frame a) ∧ shape a = (2, 2, 3)%nat))
    as (r & out & σ' & Hrun & Hnew & _ & Hout & Hlen & HP).
  - unfold len. simpl. lia.
  - intros _ l σ1 σ2 (a & Ha & Hs) Hkeep. exists a. split; [by apply Hkeep|done].
  - intros i σi Hi Hsub.
    assert (@window_at loc [2%positive; 1%positive] 2 (Z.of_nat i)
            = [2%positive; 1%positive]) as ->.
    { destruct i as [|[|i]]; [reflexivity|reflexivity|simpl in Hi; lia]. }
    assert (Forall2 (λ l a, σi !! l = Some (Frame a)) [2%positive; 1%positive]
              [large_white_frame; black_frame]) as Hpts.
    { assert (broadcast_heap !! 2%positive = Some (Frame large_white_frame)) as H2
        by reflexivity.
      assert (broadcast_heap !! 1%positive = Some (Frame black_frame)) as H1
        by reflexivity.
      constructor; [exact (lookup_weaken _ _ _ _ H2 Hsub)|].
      constructor; [exact (lookup_weaken _ _ _ _ H1 Hsub)|]. constructor. }
    destruct (blend_loop_broadcasts
                (DiffusionService.basic_weights 2 (center_at 2 (Z.of_nat i)))
                (map astype_float32 [large_white_frame; black_frame]) 0
                (np_zeros_like (astype_float32 large_white_frame)))
      as (sm & Hsm & Hshape).
    { repeat constructor. }
    { rewrite basic_weights_unfold, normalised_length. simpl. lia. }
    rewrite _temporal_smooth_kernel.
    rewrite (kernel_ok _ _ [large_white_frame; black_frame] sm _ Hpts);
      [|simpl; lia|exact Hsm].
    destruct (alloc_fresh (Frame (astype_uint8 (np_clip sm 0 255))) σi)
      as (l & -> & Hfresh).
    exists l, (<[l := Frame (astype_uint8 (np_clip sm 0 255))]> σi).
    split; [done|]. split; [by apply insert_subseteq|].
    exists (astype_uint8 (np_clip sm 0 255)). by rewrite lookup_insert_eq.
  - exists r, out, σ'. rewrite _apply_temporal_consistency_unfold.
    do 4 (split; [done|]). apply Forall_lookup_2. intros i l Hi. by apply (HP i).
Qed.

(** ** Identical frames *)

(** In exact arithmetic the basic kernel maps a window of frames that all
    carry the samples of [a0] to a frame with these samples. *)
Lemma _temporal_smooth_identical (σ : heap) (window_frames : list loc)
    (center_idx : Z) (a0 : ndarray Z) :
  window_frames ≠ [] →
  (∀ y x c, 0 ≤ item a0 y x c ≤ 255)%Z →
  Forall (λ l, ∃ a, σ !! l = Some (Frame a) ∧ same_array a a0) window_frames →
  ∃ l σ', DiffusionService._temporal_smooth window_frames center_idx σ
          = (Returned l, σ') ∧
          σ ⊆ σ' ∧ ∃ a, σ' !! l = Some (Frame a) ∧ same_array a a0.
Proof.
  intros Hne Hbyte Hall.
  destruct (decide (length window_frames = 1%nat)) as [Hone|Hmany].
  - destruct window_frames as [|l [|??]]; try done.
    apply Forall_cons in Hall as [Hl _].
    exists l, σ. rewrite _temporal_smooth_kernel, kernel_single. by split.
  - assert (∃ arrs, Forall2 (λ l a, σ !! l = Some (Frame a)) window_frames arrs ∧
                    Forall (λ a, same_array a a0) arrs) as (arrs & Hpts & Hsame).
    { clear Hne Hmany. induction Hall as [|l ls (a & Hl & Ha) _ (arrs & ? & ?)].
      - by exists [].
      - exists (a :: arrs). split; by constructor. }
    destruct (shape a0) as [[h w] ch] eqn:Hshape.
    destruct (_temporal_smooth_spec σ window_frames arrs center_idx h w ch Hpts)
      as (l & out & Hrun & Hfresh & Hs & Hitem).
    { destruct window_frames as [|? [|??]]; simpl in *; try done; lia. }
    { eapply Forall_impl; [exact Hsame|]. simpl. intros a [-> _]. done. }
    exists l, (<[l := Frame out]> σ). split; [done|].
    split; [by apply insert_subseteq|]. exists out.
    split; [by rewrite lookup_insert_eq|]. split; [congruence|].
    intros y x c. rewrite Hitem.
    rewrite (weighted_sum_constant _ _ _ _ (IZR (item a0 y x c))).
    + rewrite basic_weights_unfold, normalised_sum.
      * rewrite Rmult_1_r, clip_inside, trunc_IZR; [done|apply Hbyte|].
        destruct (Hbyte y x c). split; by apply IZR_le.
      * destruct window_frames; simpl; [done|lia].
    + apply Forall_map. eapply Forall_impl; [exact Hsame|]. simpl.
      intros a [_ Ha]. by rewrite Ha.
    + rewrite basic_weights_unfold, normalised_length, length_map.
      by eapply Forall2_length.
Qed.

Lemma identical_frames_smoothed (σ : heap) (frames : loc) (fs : list loc)
    (window_size : Z) (a0 : ndarray Z) :
  σ !! frames = Some (PyList fs) →
  (0 ≤ window_size ≤ len fs)%Z →
  (∀ y x c, 0 ≤ item a0 y x c ≤ 255)%Z →
  Forall (λ l, ∃ a, σ !! l = Some (Frame a) ∧ same_array a a0) fs →
  ∃ r out σ',
    apply_with DiffusionService._temporal_smooth frames window_size σ
    = (Returned r, σ') ∧
    σ !! r = None ∧ σ ⊆ σ' ∧ σ' !! r = Some (PyList out) ∧
    length out = length fs ∧
    Forall (λ l, ∃ a, σ' !! l = Some (Frame a) ∧ same_array a a0) out.
Proof.
  intros Hl Hw Hbyte Hall.
  destruct (apply_with_returns DiffusionService._temporal_smooth frames window_size
              σ fs Hl (λ _ l σ', ∃ a, σ' !! l = Some (Frame a) ∧ same_array a a0))
    as (r & out & σ' & Hrun & Hnew & Hsub & Hout & Hlen & HP).
  - lia.
  - intros _ l σ1 σ2 (a & Ha & Hsame) Hkeep. exists a. split; [by apply Hkeep|done].
  - intros i σi Hi Hsub. apply _temporal_smooth_identical; [|done|].
    + apply window_at_not_empty; [lia|done].
    + apply py_slice_Forall. eapply Forall_impl; [exact Hall|]. simpl.
      intros l (a & Ha & Hsame). exists a. split; [by eapply lookup_weaken|done].
  - exists r, out, σ'. do 5 (split; [done|]).
    apply Forall_lookup_2. intros i l Hi. by apply (HP i).
Qed.

(** C9.  Five frames with every pixel [100, 150, 200] (of any height and
    width), window size 3, basic mode: the call returns a list of five
    frames, each with the shape and every sample of the input frame. *)
Theorem identical_solid_frames_are_unchanged (σ : heap) (frames : loc)
    (fs : list loc) (h w : nat) :
  σ !! frames = Some (PyList fs) → length fs = 5%nat →
  Forall (λ l, σ !! l = Some (Frame (solid h w [100; 150; 200]%Z))) fs →
  ∃ r out σ',
    DiffusionService._apply_temporal_consistency frames 3 σ = (Returned r, σ') ∧
    σ' !! r = Some (PyList out) ∧ length out = 5%nat ∧
    Forall (λ l, ∃ a, σ' !! l = Some (Frame a) ∧
                      same_array a (solid h w [100; 150; 200]%Z)) out.
Proof.
  intros Hl Hlen Hall.
  destruct (identical_frames_smoothed σ frames fs 3 (solid h w [100; 150; 200]%Z) Hl)
    as (r & out & σ' & Hrun & _ & _ & Hout & Hlen' & Hsame).
  - unfold len. lia.
  - intros y x c. unfold solid. simpl.
    destruct c as [|[|[|c]]]; simpl; try lia. destruct c; simpl; lia.
  - eapply Forall_impl; [exact Hall|]. simpl. intros l Hin.
    by exists (solid h w [100; 150; 200]%Z).
  - exists r, out, σ'. rewrite _apply_temporal_consistency_unfold.
    split; [done|]. split; [done|]. split; [lia|done].
Qed.

Lemma identical_solid_frames_are_unchanged_witness :
  ∃ r out σ',
    DiffusionService._apply_temporal_consistency 6%positive 3 five_solid_heap
    = (Returned r, σ') ∧
    σ' !! r = Some (PyList out) ∧ length out = 5%nat ∧
    Forall (λ l, ∃ a, σ' !! l = Some (Frame a) ∧
                      same_array a (solid 4 2 [100; 150; 200]%Z)) out.
Proof.
  apply (identical_solid_frames_are_unchanged five_solid_heap 6%positive
           five_solid_frames 4 2).
  - reflexivity.
  - reflexivity.
  - repeat constructor.
Defined.

(** The example of C9 in binary floating point: for the three windows of
    five frames with window size 3, each sample 100, 150 and 200 comes back
    unchanged, whichever of the three candidate values [np.exp(-0.5)]
    returns, in whichever order the weights are summed, and whether the
    accumulation is done in float32 or in float64. *)
Lemma identical_frames_in_binary_arithmetic : IEEE.identical_frames_check = true.
Proof. vm_compute. reflexivity. Qed.

(** The identity of [_temporal_smooth_identical] is one of exact arithmetic:
    with float32 accumulation the three-frame window turns the sample 255
    into 254 (the blend is just below 255 and [astype] truncates). *)
Remark white_sample_in_binary_arithmetic :
  IEEE.to_uint8
    (IEEE.blend_sample IEEE.accumulate32
       (IEEE.normalise IEEE.sum_left_to_right
          [S754_finite false 5463142506141194 (-53); IEEE.of_int 53 1024 1;
           S754_finite false 5463142506141194 (-53)])
       [255; 255; 255]%Z)
  = 254%Z.
Proof. vm_compute. reflexivity. Qed.
